(* ===================================================================== *)
(* Voice AI platform: the conversation orchestration core                 *)
(*                                                                       *)
(* A shallow embedding of                                                *)
(*   - VoiceOrchestrator    src/unnamed/part_010                          *)
(*   - OpenAIService        src/unnamed/part_011                          *)
(*   - DeepgramService      src/apps/api/src/services/DeepgramService.ts  *)
(*   - ElevenLabsService    src/apps/api/src/services/ElevenLabsService.ts*)
(*   - TwilioService        src/apps/api/src/services/TwilioService.ts    *)
(*   - the Twilio webhooks  src/apps/dashboard/src/lib/api.ts (third part)*)
(*   - the socket server    src/unnamed/part_013                          *)
(*   - the calls table      src/apps/api/src/db/database.ts (schema-v3),  *)
(*                          src/unnamed/part_006 (schema-v6)              *)
(* and of the base64 codec of the runtime's Buffer, which the socket     *)
(* protocol uses for its audio fields.                                   *)
(*                                                                       *)
(* External collaborators (database, generation, synthesis and           *)
(* transcription providers) are an environment: a function from the      *)
(* requests issued so far and the current request to a reply.  Every     *)
(* theorem quantifies over all environments, or over all those whose     *)
(* database was built by the migrations of the repository.               *)
(* ===================================================================== *)

From Stdlib Require Import ZArith NArith List String Ascii Bool Lia.
From Stdlib Require Import Init.Byte Strings.Byte.
From stdpp Require Import base option gmap strings list.

Import ListNotations.
Local Open Scope string_scope.
Local Open Scope list_scope.

(* --------------------------------------------------------------------- *)
(* JavaScript strings                                                    *)
(*                                                                       *)
(* Text is a string of 8-bit characters, read as the code units U+0000   *)
(* to U+00FF (Basic Latin and Latin-1 Supplement).  Among these the      *)
(* letters with a lower-case form are A-Z and U+00C0-U+00DE without the  *)
(* multiplication sign U+00D7, each 32 places below its lower-case form; *)
(* the white space and line terminators that trim strips are TAB, LF,    *)
(* VT, FF, CR, SPACE and the no-break space U+00A0.                      *)
(* --------------------------------------------------------------------- *)

Module JsString.

(* The code units below U+0100 that toLowerCase changes. *)
Definition is_upper (n : nat) : bool :=
  ((65 <=? n)%nat && (n <=? 90)%nat) ||
  ((192 <=? n)%nat && (n <=? 222)%nat && negb (n =? 215)%nat).

Definition lower_char (c : ascii) : ascii :=
  let n := nat_of_ascii c in
  if is_upper n then ascii_of_nat (n + 32) else c.

Fixpoint toLowerCase (s : string) : string :=
  match s with
  | EmptyString => EmptyString
  | String c s' => String (lower_char c) (toLowerCase s')
  end.

(* [startsWith s p]: p is a prefix of s. *)
Fixpoint startsWith (s p : string) {struct p} : bool :=
  match p, s with
  | EmptyString, _ => true
  | String _ _, EmptyString => false
  | String a p', String b s' => Ascii.eqb a b && startsWith s' p'
  end.

(* String.prototype.includes: p occurs in s at some position. *)
Fixpoint includes (s p : string) : bool :=
  startsWith s p ||
  match s with
  | EmptyString => false
  | String _ s' => includes s' p
  end.

(* WhiteSpace and LineTerminator code units below U+0100. *)
Definition is_whitespace (c : ascii) : bool :=
  let n := nat_of_ascii c in
  ((9 <=? n)%nat && (n <=? 13)%nat) || (n =? 32)%nat || (n =? 160)%nat.

Fixpoint trimStart (s : string) : string :=
  match s with
  | EmptyString => EmptyString
  | String c s' => if is_whitespace c then trimStart s' else s
  end.

Fixpoint trimEnd (s : string) : string :=
  match s with
  | EmptyString => EmptyString
  | String c s' =>
      match trimEnd s' with
      | EmptyString => if is_whitespace c then EmptyString else String c EmptyString
      | t => String c t
      end
  end.

Definition trim (s : string) : string := trimEnd (trimStart s).

(* Truthiness of a string value: only the empty string is falsy. *)
Definition truthy (s : string) : bool :=
  match s with EmptyString => false | String _ _ => true end.

(* Truthiness of a possibly absent string field (undefined is falsy). *)
Definition present (f : option string) : bool :=
  match f with Some s => truthy s | None => false end.

Fixpoint all_whitespace (s : string) : bool :=
  match s with
  | EmptyString => true
  | String c s' => is_whitespace c && all_whitespace s'
  end.

End JsString.

(* --------------------------------------------------------------------- *)
(* Buffers and the runtime's base64 codec                                *)
(*                                                                       *)
(* The socket server encodes audio with buf.toString('base64') and decodes    *)
(* with Buffer.from(text, 'base64').  Both are the runtime's codec, not  *)
(* code of the repository; it is modelled here after its definition:     *)
(* the RFC 4648 alphabet with '=' padding on output; on input the        *)
(* forgiving decoder, which also accepts the URL-safe '-' and '_',       *)
(* skips every other character and stops at the first '='.               *)
(* --------------------------------------------------------------------- *)

Abbreviation Buffer := (list byte).

Module Base64.

Definition alphabet : string :=
  "ABCDEFGHIJKLMNOPQRSTUVWXYZabcdefghijklmnopqrstuvwxyz0123456789+/".

Definition pad : ascii := "="%char.

Definition table (v : N) : ascii :=
  match String.get (N.to_nat v) alphabet with
  | Some c => c
  | None => pad
  end.

Definition between (lo hi n : N) : bool := ((lo <=? n) && (n <=? hi))%N.

Definition unbase64 (c : ascii) : option N :=
  let n := N_of_ascii c in
  if between 65 90 n then Some (n - 65)%N          (* A-Z *)
  else if between 97 122 n then Some (n - 71)%N    (* a-z *)
  else if between 48 57 n then Some (n + 4)%N      (* 0-9 *)
  else if ((n =? 43) || (n =? 45))%N then Some 62%N  (* + and - *)
  else if ((n =? 47) || (n =? 95))%N then Some 63%N  (* / and _ *)
  else None.

(* Storing into a byte keeps the low eight bits. *)
Definition to_byte (n : N) : byte :=
  match Byte.of_N (N.land n 255) with
  | Some b => b
  | None => x00
  end.

Definition s0 (a : N) : N := N.shiftr a 2.
Definition s1 (a b : N) : N := N.lor (N.shiftl (N.land a 3) 4) (N.shiftr b 4).
Definition s2 (b c : N) : N := N.lor (N.shiftl (N.land b 15) 2) (N.shiftr c 6).
Definition s3 (c : N) : N := N.land c 63.

(* buf.toString('base64') *)
Fixpoint encode (buf : Buffer) : string :=
  match buf with
  | a :: b :: c :: rest =>
      let '(a, b, c) := (Byte.to_N a, Byte.to_N b, Byte.to_N c) in
      String (table (s0 a)) (String (table (s1 a b))
        (String (table (s2 b c)) (String (table (s3 c)) (encode rest))))
  | [a; b] =>
      let '(a, b) := (Byte.to_N a, Byte.to_N b) in
      String (table (s0 a)) (String (table (s1 a b))
        (String (table (N.shiftl (N.land b 15) 2)) (String pad EmptyString)))
  | [a] =>
      let a := Byte.to_N a in
      String (table (s0 a)) (String (table (N.shiftl (N.land a 3) 4))
        (String pad (String pad EmptyString)))
  | [] => EmptyString
  end.

(* The values of the legal characters up to the first '='. *)
Fixpoint sextets (s : string) : list N :=
  match s with
  | EmptyString => []
  | String c s' =>
      match unbase64 c with
      | Some v => v :: sextets s'
      | None => if Ascii.eqb c pad then [] else sextets s'
      end
  end.

Definition d0 (hi lo : N) : N :=
  N.lor (N.shiftl (N.land hi 63) 2) (N.shiftr (N.land lo 48) 4).
Definition d1 (hi lo : N) : N :=
  N.lor (N.shiftl (N.land hi 15) 4) (N.shiftr (N.land lo 60) 2).
Definition d2 (hi lo : N) : N :=
  N.lor (N.shiftl (N.land hi 3) 6) (N.shiftr (N.land lo 63) 0).

(* Four sextets give three bytes; a trailing group of two gives one byte,
   of three gives two, and a single trailing sextet gives none. *)
Fixpoint decode_groups (l : list N) : Buffer :=
  match l with
  | a :: b :: c :: d :: rest =>
      to_byte (d0 a b) :: to_byte (d1 b c) :: to_byte (d2 c d) :: decode_groups rest
  | [a; b; c] => [to_byte (d0 a b); to_byte (d1 b c)]
  | [a; b] => [to_byte (d0 a b)]
  | _ => []
  end.

(* Buffer.from(text, 'base64') *)
Definition decode (text : string) : Buffer := decode_groups (sextets text).

End Base64.

(* --------------------------------------------------------------------- *)
(* Data model (types/index.ts and the columns the handlers touch)        *)
(* --------------------------------------------------------------------- *)

Record Message := { role : string; content : string }.

Record Assistant := {
  first_message : option string;
  system_prompt : string;
  voice_provider : string;
  voice_id : string;
  voice_settings : option string;        (* opaque JSON *)
  model_provider : string;
  model_name : string;
  temperature : option Z;                (* DECIMAL(3,2), in hundredths *)
  max_tokens : option Z;
  stt_provider : option string;
  stt_model : option string;
  stt_language : option string;
  end_call_phrases : option (list string) (* call_settings?.end_call_phrases *)
}.

(* Rows of the calls, sessions and messages tables; timestamps are the
   logical time of the statement that wrote them. *)
Record CallRow := {
  c_id : string;
  c_call_sid : string;
  c_status : string;
  c_duration_seconds : Z;
  c_answered_by : option string;
  c_answered_at : option nat;
  c_ended_at : option nat
}.

Record SessionRow := {
  s_id : string;
  s_call_id : option string;
  s_status : string;
  s_ended_at : option nat
}.

Record MessageRow := { m_session_id : string; m_role : string; m_content : string }.

(* --------------------------------------------------------------------- *)
(* The world outside the process                                         *)
(* --------------------------------------------------------------------- *)

(* The SQL statements issued by the modelled code. *)
Inductive Statement :=
  (* INSERT INTO messages (session_id, role, content) VALUES ($1, $2, $3) *)
| InsertMessage (session_id role content : string)
  (* UPDATE calls SET status = $1, duration_seconds = $2, answered_by = $3,
     [ended_at = NOW(),] [answered_at = NOW(),] updated_at = NOW()
     WHERE call_sid = $4 *)
| UpdateCall (status : string) (duration : Z) (answered_by : option string)
             (call_sid : string)
  (* UPDATE sessions SET status = 'ended', ended_at = NOW()
     WHERE call_id = (SELECT id FROM calls WHERE call_sid = $1) *)
| EndSessionsOfCall (call_sid : string)
  (* UPDATE sessions SET status = 'ended', ended_at = NOW()
     WHERE id = $1 [AND status = 'active'] *)
| EndSession (session_id : string) (only_active : bool).

Inductive Request :=
| Sql (q : Statement)
| ChatCompletion (messages : list Message) (model : string)
                 (temperature max_tokens : Z)
| ElevenLabsSpeech (text voice_id : string) (settings : option string)
| OpenAISpeech (text voice : string)
| DeepgramPrerecorded (audio : Buffer) (model language : string)
| WhisperTranscription (audio : Buffer) (language : string)
| DeepgramListenLive (model language : string) (interim_results : bool)
| LiveSend (connection : nat) (audio : Buffer)
| LiveFinish (connection : nat).

Inductive Reply :=
| Failure                      (* the call rejects or throws *)
| Ack
| Text (t : option string)     (* a possibly null text *)
| Bytes (b : Buffer).

(* The collaborators: the reply to a request, given the requests so far. *)
Definition Env : Type := list Request -> Request -> Reply.

Record World := {
  trace : list Request;          (* every request issued, oldest first *)
  calls : list CallRow;
  sessions : list SessionRow;
  messages : list MessageRow
}.

Definition log (r : Request) (w : World) : World :=
  {| trace := trace w ++ [r]; calls := calls w;
     sessions := sessions w; messages := messages w |}.

Definition now (w : World) : nat := length (trace w).

Module Sql.

Definition update_call (status : string) (duration : Z)
    (answered_by : option string) (t : nat) (r : CallRow) : CallRow :=
  {| c_id := c_id r;
     c_call_sid := c_call_sid r;
     c_status := status;
     c_duration_seconds := duration;
     c_answered_by := answered_by;
     c_answered_at :=
       if String.eqb status "in-progress" then Some t else c_answered_at r;
     c_ended_at :=
       if String.eqb status "completed" then Some t else c_ended_at r |}.

Definition end_session (t : nat) (r : SessionRow) : SessionRow :=
  {| s_id := s_id r; s_call_id := s_call_id r;
     s_status := "ended"; s_ended_at := Some t |}.

Definition where_ {A} (p : A -> bool) (f : A -> A) (rows : list A) : list A :=
  map (fun r => if p r then f r else r) rows.

(* SELECT id FROM calls WHERE call_sid = $1 *)
Definition call_ids (sid : string) (cs : list CallRow) : list string :=
  map c_id (List.filter (fun r => String.eqb (c_call_sid r) sid) cs).

Definition call_id_is (id : string) (r : SessionRow) : bool :=
  match s_call_id r with
  | Some c => String.eqb c id
  | None => false
  end.

(* The effect of a statement the server accepts; None when it fails while
   running (a scalar subquery that yields more than one row). *)
Definition run (q : Statement) (w : World) : option World :=
  let t := now w in
  match q with
  | InsertMessage sid r c =>
      Some {| trace := trace w; calls := calls w; sessions := sessions w;
              messages := messages w ++
                [{| m_session_id := sid; m_role := r; m_content := c |}] |}
  | UpdateCall st d ab sid =>
      Some {| trace := trace w;
              calls := where_ (fun r => String.eqb (c_call_sid r) sid)
                              (update_call st d ab t) (calls w);
              sessions := sessions w; messages := messages w |}
  | EndSessionsOfCall sid =>
      match call_ids sid (calls w) with
      | [] => Some w        (* call_id = NULL holds for no row *)
      | [id] =>
          Some {| trace := trace w; calls := calls w;
                  sessions := where_ (call_id_is id) (end_session t) (sessions w);
                  messages := messages w |}
      | _ => None
      end
  | EndSession id only_active =>
      Some {| trace := trace w; calls := calls w;
              sessions :=
                where_ (fun r => String.eqb (s_id r) id &&
                          (negb only_active || String.eqb (s_status r) "active"))
                       (end_session t) (sessions w);
              messages := messages w |}
  end.

End Sql.

(* --------------------------------------------------------------------- *)
(* The calls table as the migrations build it                            *)
(* --------------------------------------------------------------------- *)

Module Schema.

(* The columns of calls: CREATE TABLE calls of schema-v3.sql
   (src/apps/api/src/db/database.ts, lines 164-199) and ALTER TABLE calls
   of schema-v6-phone-enhancements.sql (src/unnamed/part_006, lines
   90-96).  No other migration names the table. *)
Definition calls_table : list string :=
  [ "id"; "org_id"; "assistant_id"; "phone_number_id";
    "call_sid"; "direction"; "from_number"; "to_number";
    "status"; "answered_by";
    "started_at"; "answered_at"; "ended_at"; "duration_seconds";
    "recording_url"; "recording_duration";
    "cost"; "cost_currency";
    "end_reason"; "metadata"; "created_at";
    "machine_detection_status"; "queue_sid"; "queue_time_seconds";
    "transferred_to"; "transfer_type" ].

Definition has_column (table : list string) (column : string) : bool :=
  existsb (String.eqb column) table.

(* The columns of calls that a statement names. *)
Definition calls_columns (q : Statement) : list string :=
  match q with
  | InsertMessage _ _ _ => []
  | UpdateCall status _ _ _ =>
      ["status"; "duration_seconds"; "answered_by"] ++
      (if String.eqb status "completed" then ["ended_at"] else []) ++
      (if String.eqb status "in-progress" then ["answered_at"] else []) ++
      ["updated_at"; "call_sid"]
  | EndSessionsOfCall _ => ["id"; "call_sid"]
  | EndSession _ _ => []
  end.

(* The server rejects a statement that names a column the table lacks. *)
Definition accepts (q : Statement) : bool :=
  forallb (has_column calls_table) (calls_columns q).

End Schema.

(* --------------------------------------------------------------------- *)
(* Computations: state passing with exceptions                           *)
(*                                                                       *)
(* A computation runs on an object state O (an orchestrator, a socket    *)
(* connection, the call registry) and the world; it returns a value or   *)
(* throws, and what it did to the state before throwing stays done.      *)
(* --------------------------------------------------------------------- *)

Inductive Outcome (A : Type) :=
| Returned (a : A)
| Thrown (e : string).
Arguments Returned {A} a.
Arguments Thrown {A} e.

Definition M (O A : Type) : Type := O * World -> Outcome A * (O * World).

Definition ret {O A} (a : A) : M O A := fun s => (Returned a, s).

Definition bind {O A B} (m : M O A) (k : A -> M O B) : M O B :=
  fun s =>
    match m s with
    | (Returned a, s') => k a s'
    | (Thrown e, s') => (Thrown e, s')
    end.

Definition throw {O A} (e : string) : M O A := fun s => (Thrown e, s).

(* try { m } catch (error) { h error } *)
Definition try_catch {O A} (m : M O A) (h : string -> M O A) : M O A :=
  fun s =>
    match m s with
    | (Returned a, s') => (Returned a, s')
    | (Thrown e, s') => h e s'
    end.

Definition get {O} : M O O := fun s => (Returned (fst s), s).

Definition modify {O} (f : O -> O) : M O unit :=
  fun s => (Returned tt, (f (fst s), snd s)).

(* Run a computation of a component P on the part of O that holds it. *)
Definition zoom {O P A} (proj : O -> P) (inj : P -> O -> O) (m : M P A) : M O A :=
  fun s =>
    match m (proj (fst s), snd s) with
    | (r, (p', w')) => (r, (inj p' (fst s), w'))
    end.

#[global] Instance M_ret {O} : MRet (M O) := fun A => @ret O A.
#[global] Instance M_bind {O} : MBind (M O) := fun A B k m => @bind O A B m k.

(* Issue a request: it is logged, and the environment answers. *)
Definition request {O} (env : Env) (r : Request) : M O Reply :=
  fun s => (Returned (env (trace (snd s)) r), (fst s, log r (snd s))).

(* Database.query *)
Definition query {O} (env : Env) (q : Statement) : M O unit :=
  fun s =>
    let w := log (Sql q) (snd s) in
    match env (trace (snd s)) (Sql q) with
    | Ack =>
        match Sql.run q w with
        | Some w' => (Returned tt, (fst s, w'))
        | None => (Thrown "database error", (fst s, w))
        end
    | _ => (Thrown "database error", (fst s, w))
    end.

(* a || b on strings and on optional fields *)
Definition or_else (a : option string) (b : string) : string :=
  match a with
  | Some s => if JsString.truthy s then s else b
  | None => b
  end.

Definition num_or_else (a : option Z) (b : Z) : Z :=
  match a with
  | Some n => if (n =? 0)%Z then b else n
  | None => b
  end.

(* -------------- OpenAIService (src/unnamed/part_011) ----------------- *)

Module OpenAIService.

Definition generateResponse {O} (env : Env) (messages : list Message) (model : string)
    (temperature max_tokens : Z) : M O (option string) :=
  r ← request env (ChatCompletion messages model temperature max_tokens);
  match r with
  | Text (Some c) => mret (if JsString.truthy c then Some c else None)
  | Text None => mret None
  | _ => throw "Failed to generate response from OpenAI"
  end.

Definition generateSpeech {O} (env : Env) (text voice : string) : M O Buffer :=
  r ← request env (OpenAISpeech text voice);
  match r with
  | Bytes b => mret b
  | _ => throw "Failed to generate speech from OpenAI"
  end.

Definition transcribeAudio {O} (env : Env) (audio : Buffer) (language : option string)
    : M O string :=
  r ← request env (WhisperTranscription audio (or_else language "en"));
  match r with
  | Text (Some t) => mret t
  | Text None => mret ""
  | _ => throw "Failed to transcribe audio with Whisper"
  end.

End OpenAIService.

(* ----------------------- ElevenLabsService.ts ------------------------ *)

Module ElevenLabsService.

Definition generateSpeech {O} (env : Env) (text voiceId : string) (settings : option string)
    : M O Buffer :=
  r ← request env (ElevenLabsSpeech text voiceId settings);
  match r with
  | Bytes b => mret b
  | _ => throw "Failed to generate speech from ElevenLabs"
  end.

End ElevenLabsService.


(* ------------------------ DeepgramService.ts ------------------------- *)

Record DeepgramService := {
  liveConnection : option nat;   (* null, or the open live connection *)
  transcript_listeners : nat     (* handlers registered with on('transcript') *)
}.

Module DeepgramService.

Definition new : DeepgramService :=
  {| liveConnection := None; transcript_listeners := 0 |}.

Definition set_liveConnection (c : option nat) (d : DeepgramService) :=
  {| liveConnection := c; transcript_listeners := transcript_listeners d |}.

Definition add_listener (d : DeepgramService) :=
  {| liveConnection := liveConnection d;
     transcript_listeners := S (transcript_listeners d) |}.

Definition createLiveConnection (env : Env) (model language : option string)
    (interimResults : bool) : M DeepgramService nat :=
  fun s =>
    let id := now (snd s) in
    (r ← request env (DeepgramListenLive (or_else model "nova-2")
                        (or_else language "en-US") interimResults);
     match r with
     | Ack => _ ← modify (set_liveConnection (Some id)); mret id
     | _ => throw "Failed to initialize live transcription"
     end) s.

Definition sendAudio (env : Env) (audioData : Buffer) : M DeepgramService unit :=
  d ← get;
  match liveConnection d with
  | None => throw "No active live connection"
  | Some c =>
      r ← request env (LiveSend c audioData);
      match r with
      | Failure => throw "live connection send failed"
      | _ => mret tt
      end
  end.

Definition closeLiveConnection (env : Env) : M DeepgramService unit :=
  d ← get;
  match liveConnection d with
  | Some c =>
      r ← request env (LiveFinish c);
      match r with
      | Failure => throw "live connection finish failed"
      | _ => modify (set_liveConnection None)
      end
  | None => mret tt
  end.

Definition transcribeAudio (env : Env) {O} (audioBuffer : Buffer)
    (model language : option string) : M O string :=
  r ← request env (DeepgramPrerecorded audioBuffer (or_else model "nova-2")
                     (or_else language "en-US"));
  match r with
  | Text t => mret (or_else t "")
  | _ => throw "Failed to transcribe audio with Deepgram"
  end.

Definition isLiveConnectionActive (d : DeepgramService) : bool :=
  match liveConnection d with Some _ => true | None => false end.

End DeepgramService.

(* ------------ VoiceOrchestrator (src/unnamed/part_010) -------------- *)

Record VoiceOrchestrator := {
  sessionId : string;
  assistant : Assistant;
  conversationHistory : list Message;
  deepgram : DeepgramService
}.

Record TurnResult := { text : string; audio : Buffer }.

Module VoiceOrchestrator.

Definition new (sessionId : string) (assistant : Assistant) : VoiceOrchestrator :=
  {| sessionId := sessionId;
     assistant := assistant;
     conversationHistory :=
       [{| role := "system"; content := system_prompt assistant |}];
     deepgram := DeepgramService.new |}.

Definition push (m : Message) (o : VoiceOrchestrator) : VoiceOrchestrator :=
  {| sessionId := sessionId o; assistant := assistant o;
     conversationHistory := conversationHistory o ++ [m];
     deepgram := deepgram o |}.

Definition set_deepgram (d : DeepgramService) (o : VoiceOrchestrator) :=
  {| sessionId := sessionId o; assistant := assistant o;
     conversationHistory := conversationHistory o; deepgram := d |}.

Definition saveMessage (env : Env) (role content : string)
    : M VoiceOrchestrator unit :=
  o ← get;
  query env (InsertMessage (sessionId o) role content).

Definition generateLLMResponse (env : Env) : M VoiceOrchestrator string :=
  o ← get;
  let a := assistant o in
  if String.eqb (model_provider a) "openai" then
    response ← OpenAIService.generateResponse env (conversationHistory o)
                 (model_name a) (num_or_else (temperature a) 70)
                 (num_or_else (max_tokens a) 500);
    mret (or_else response "")
  else throw ("Unsupported model provider: " +:+ model_provider a).

Definition generateAudio (env : Env) (text : string) : M VoiceOrchestrator Buffer :=
  o ← get;
  let a := assistant o in
  if String.eqb (voice_provider a) "elevenlabs" then
    ElevenLabsService.generateSpeech env text (voice_id a) (voice_settings a)
  else if String.eqb (voice_provider a) "openai" then
    OpenAIService.generateSpeech env text (voice_id a)
  else throw ("Unsupported voice provider: " +:+ voice_provider a).

(* The try/catch of the source logs and rethrows the same error. *)
Definition processUserMessage (env : Env) (userMessage : string)
    : M VoiceOrchestrator TurnResult :=
  try_catch
    (_ ← saveMessage env "user" userMessage;
     _ ← modify (push {| role := "user"; content := userMessage |});
     assistantResponse ← generateLLMResponse env;
     _ ← saveMessage env "assistant" assistantResponse;
     _ ← modify (push {| role := "assistant"; content := assistantResponse |});
     audio ← generateAudio env assistantResponse;
     mret {| text := assistantResponse; audio := audio |})
    (fun error => throw error).

Definition getFirstMessage (env : Env) : M VoiceOrchestrator (option TurnResult) :=
  o ← get;
  match first_message (assistant o) with
  | Some fm =>
      if JsString.truthy fm then
        _ ← saveMessage env "assistant" fm;
        _ ← modify (push {| role := "assistant"; content := fm |});
        audio ← generateAudio env fm;
        mret (Some {| text := fm; audio := audio |})
      else mret None
  | None => mret None
  end.

Definition getConversationHistory (o : VoiceOrchestrator) : list Message :=
  conversationHistory o.

(* stt_language?.split('-')[0] *)
Fixpoint before_dash (s : string) : string :=
  match s with
  | EmptyString => EmptyString
  | String c s' => if Ascii.eqb c "-" then EmptyString else String c (before_dash s')
  end.

Definition transcribeAudio (env : Env) (audioBuffer : Buffer)
    : M VoiceOrchestrator string :=
  o ← get;
  let a := assistant o in
  let sttProvider := or_else (stt_provider a) "deepgram" in
  if String.eqb sttProvider "deepgram" then
    DeepgramService.transcribeAudio env audioBuffer (stt_model a) (stt_language a)
  else if String.eqb sttProvider "whisper" then
    OpenAIService.transcribeAudio env audioBuffer
      (Some (or_else (before_dash <$> stt_language a) "en"))
  else throw ("Unsupported STT provider: " +:+ sttProvider).

Definition processUserAudio (env : Env) (audioBuffer : Buffer)
    : M VoiceOrchestrator (TurnResult * string) :=
  try_catch
    (transcription ← transcribeAudio env audioBuffer;
     if JsString.truthy transcription then
       response ← processUserMessage env transcription;
       mret (response, transcription)
     else throw "Failed to transcribe audio")
    (fun error => throw error).

(* getDeepgramService: run a method of the orchestrator's own service. *)
Definition with_deepgram {A} (m : M DeepgramService A) : M VoiceOrchestrator A :=
  zoom deepgram set_deepgram m.

End VoiceOrchestrator.

(* -------------------- TwilioService.generateTwiML -------------------- *)

(* The voice response is kept as the tree the builder produces; the
   claims are about which instructions it holds, not about its XML text. *)
Inductive Nested := NestedSay (text : string).

Inductive Verb :=
| Say (voice text : string)
| Play (url : string)
| Gather (input : list string) (action : option string) (timeout : Z)
         (speechTimeout speechModel : string) (children : list Nested)
| Record_ (action : string) (transcribe : bool) (transcribeCallback : string)
| Hangup.

Record GatherParams := {
  g_input : option (list string);
  g_action : option string;
  g_timeout : option Z;
  g_speechTimeout : option string;
  g_speechModel : option string
}.

Record TwiMLParams := {
  p_say : option string;
  p_play : option string;
  p_gather : option GatherParams;
  p_record : bool;
  p_hangup : bool
}.

Module TwilioService.

Definition generateTwiML (base_url : string) (params : TwiMLParams) : list Verb :=
  (if JsString.present (p_say params)
   then [Say "Polly.Joanna" (or_else (p_say params) "")] else []) ++
  (if JsString.present (p_play params)
   then [Play (or_else (p_play params) "")] else []) ++
  match p_gather params with
  | Some g =>
      [Gather (default ["speech"] (g_input g))
              (g_action g)
              (num_or_else (g_timeout g) 3)
              (or_else (g_speechTimeout g) "auto")
              (or_else (g_speechModel g) "experimental_conversations")
              (if JsString.present (p_say params)
               then [NestedSay (or_else (p_say params) "")] else [])]
  | None => []
  end ++
  (if p_record params
   then [Record_ (base_url +:+ "/api/v1/twilio/recording") true
                 (base_url +:+ "/api/v1/twilio/transcription")] else []) ++
  (if p_hangup params then [Hangup] else []).

End TwilioService.

Definition is_hangup (v : Verb) : bool :=
  match v with Hangup => true | _ => false end.

Definition is_gather (v : Verb) : bool :=
  match v with Gather _ _ _ _ _ _ => true | _ => false end.

Definition says (t : string) (v : Verb) : bool :=
  match v with Say _ t' => String.eqb t t' | _ => false end.

Definition has_hangup (markup : list Verb) : bool := existsb is_hangup markup.
Definition has_gather (markup : list Verb) : bool := existsb is_gather markup.
Definition speaks (t : string) (markup : list Verb) : bool := existsb (says t) markup.

(* ------- Twilio webhooks (src/apps/dashboard/src/lib/api.ts) --------- *)

Record ActiveCall := {
  call_orchestrator : VoiceOrchestrator;
  call_assistant : Assistant
}.

Inductive HttpResponse :=
| Xml (markup : list Verb)
| Plain (status : nat) (body : string).

Record GatherRequest := {
  query_call_sid : option string;     (* req.query.call_sid *)
  gather_CallSid : string;            (* req.body.CallSid *)
  SpeechResult : option string
}.

Record StatusRequest := {
  status_CallSid : string;
  CallStatus : string;
  CallDuration : option Z;
  AnsweredBy : option string
}.

Module Twilio.

Definition say_and_hangup (t : string) : TwiMLParams :=
  {| p_say := Some t; p_play := None; p_gather := None;
     p_record := false; p_hangup := true |}.

Definition gather_action (base_url callSid : string) : string :=
  base_url +:+ "/api/v1/twilio/gather?call_sid=" +:+ callSid.

Definition set_orchestrator (o : VoiceOrchestrator) (c : ActiveCall) : ActiveCall :=
  {| call_orchestrator := o; call_assistant := call_assistant c |}.

(* The registry holds the orchestrator object itself: what a method does
   to it is seen through the entry for as long as the entry is there. *)
Definition on_orchestrator {A} (callSid : string) (activeCall : ActiveCall)
    (m : M VoiceOrchestrator A) : M (gmap string ActiveCall) A :=
  zoom (fun _ => call_orchestrator activeCall)
       (fun o activeCalls => alter (set_orchestrator o) callSid activeCalls) m.

Definition shouldEnd (speech : string) (endPhrases : list string) : bool :=
  existsb (fun phrase =>
             JsString.includes (JsString.toLowerCase speech)
                               (JsString.toLowerCase phrase)) endPhrases.

Definition reprompt (base_url callSid : string) : TwiMLParams :=
  {| p_say := Some "I didn't catch that. Could you please repeat?";
     p_play := None;
     p_gather := Some
       {| g_input := Some ["speech"];
          g_action := Some (gather_action base_url callSid);
          g_timeout := Some 3%Z;
          g_speechTimeout := None;
          g_speechModel := None |};
     p_record := false; p_hangup := false |}.

Definition say_and_gather (base_url callSid t : string) : TwiMLParams :=
  {| p_say := Some t; p_play := None;
     p_gather := Some
       {| g_input := Some ["speech"];
          g_action := Some (gather_action base_url callSid);
          g_timeout := Some 3%Z;
          g_speechTimeout := Some "auto";
          g_speechModel := None |};
     p_record := false; p_hangup := false |}.

(* router.post('/gather') *)
Definition gather (env : Env) (base_url : string) (req : GatherRequest)
    : M (gmap string ActiveCall) HttpResponse :=
  try_catch
    (let callSid := or_else (query_call_sid req) (gather_CallSid req) in
     if negb (JsString.present (SpeechResult req)) then
       (* No speech detected, ask again *)
       mret (Xml (TwilioService.generateTwiML base_url (reprompt base_url callSid)))
     else
       let speech := or_else (SpeechResult req) "" in
       activeCalls ← get;
       match activeCalls !! callSid with
       | None =>
           mret (Xml (TwilioService.generateTwiML base_url
                        (say_and_hangup "Session expired. Please call again.")))
       | Some activeCall =>
           response ← on_orchestrator callSid activeCall
                        (VoiceOrchestrator.processUserMessage env speech);
           let endPhrases :=
             default [] (end_call_phrases (call_assistant activeCall)) in
           if shouldEnd speech endPhrases then
             _ ← modify (delete callSid);
             mret (Xml (TwilioService.generateTwiML base_url
                          (say_and_hangup (text response))))
           else
             mret (Xml (TwilioService.generateTwiML base_url
                          (say_and_gather base_url callSid (text response))))
       end)
    (fun error =>
       mret (Xml (TwilioService.generateTwiML base_url
                    (say_and_hangup "An error occurred.")))).

Definition cleans_up (callStatus : string) : bool :=
  String.eqb callStatus "completed" || String.eqb callStatus "failed".

(* router.post('/status') *)
Definition status (env : Env) (req : StatusRequest)
    : M (gmap string ActiveCall) HttpResponse :=
  try_catch
    (_ ← query env (UpdateCall (CallStatus req) (num_or_else (CallDuration req) 0)
                      (AnsweredBy req) (status_CallSid req));
     if cleans_up (CallStatus req) then
       _ ← modify (delete (status_CallSid req));
       _ ← query env (EndSessionsOfCall (status_CallSid req));
       mret (Plain 200 "OK")
     else mret (Plain 200 "OK"))
    (fun error => mret (Plain 500 "Error")).

End Twilio.

(* ------------- socket server (src/unnamed/part_013) ------------------ *)

Inductive ClientMessage :=
| UserMessage (text : string)
| UserAudio (data : option string)
| UserAudioStreamStart
| UserAudioStreamChunk (data : option string)
| UserAudioStreamEnd
| EndSessionMessage
| OtherMessage (type : string).      (* no branch of the dispatch matches *)

Inductive ServerMessage :=
| Connected (sessionId : string)
| AssistantMessage (text audio : string) (transcription : option string)
| InterimTranscript (text : string) (confidence : option Z)
| AudioStreamReady
| AudioStreamClosed
| ErrorMessage (message : string)
| SessionEnded.

(* What the live connection reports (LiveTranscriptionEvents.Transcript):
   data.channel?.alternatives?.[0]?.transcript, data.is_final and the
   alternative's confidence. *)
Record LiveTranscript := {
  lt_transcript : option string;
  lt_is_final : bool;
  lt_confidence : option Z
}.

(* What DeepgramService emits as 'transcript'. *)
Record TranscriptEvent := {
  ev_text : string;
  isFinal : bool;
  confidence : option Z
}.

(* The state one connection's handlers close over. *)
Record Connection := {
  orchestrator : VoiceOrchestrator;
  sent : list ServerMessage;       (* handed to ws.send, oldest first *)
  ws_closed : bool
}.

Module WebSocket.

Definition set_orchestrator (o : VoiceOrchestrator) (c : Connection) : Connection :=
  {| orchestrator := o; sent := sent c; ws_closed := ws_closed c |}.

Definition ws_send (m : ServerMessage) : M Connection unit :=
  modify (fun c => {| orchestrator := orchestrator c; sent := sent c ++ [m];
                      ws_closed := ws_closed c |}).

Definition ws_close : M Connection unit :=
  modify (fun c => {| orchestrator := orchestrator c; sent := sent c;
                      ws_closed := true |}).

Definition on_orchestrator {A} (m : M VoiceOrchestrator A) : M Connection A :=
  zoom orchestrator set_orchestrator m.

Definition on_deepgram {A} (m : M DeepgramService A) : M Connection A :=
  on_orchestrator (VoiceOrchestrator.with_deepgram m).

(* The transcript handler, deepgram.on('transcript', async (data) => ...),
   is an async function: a call of it returns to the emitter when its body
   ends or is suspended at an await.  Only its first branch awaits: there
   the call returns with the turn started and suspended, and the turn
   goes on, its requests answered one by one, after the emitter has
   returned.  The handler is therefore given in two parts: on_transcript
   is the call as the emitter sees it, and process_final_transcription is
   the first branch, the turn that such a call leaves pending. *)

(* try { const response = await orchestrator.processUserMessage(data.text);
         ws.send(...) } catch (error) { console.error(...) } *)
Definition process_final_transcription (env : Env) (transcript : string)
    : M Connection unit :=
  try_catch
    (response ← on_orchestrator
                  (VoiceOrchestrator.processUserMessage env transcript);
     ws_send (AssistantMessage (text response) (Base64.encode (audio response))
                               (Some transcript)))
    (fun error => mret tt).

(* One call of the handler.  The result is what the call has left
   pending, if anything: the rest of its first branch. *)
Definition on_transcript (env : Env) (data : TranscriptEvent)
    : M Connection (option (M Connection unit)) :=
  if isFinal data && JsString.truthy (JsString.trim (ev_text data)) then
    (* Process final transcription as user message *)
    mret (Some (process_final_transcription env (ev_text data)))
  else if negb (isFinal data) then
    (* Send interim transcript to client *)
    _ ← ws_send (InterimTranscript (ev_text data) (confidence data));
    mret None
  else mret None.

(* this.emit('transcript', data): the registered handlers are called one
   after the other, in the order of their registration; each stream start
   registers one more.  The result lists what the calls have left pending,
   one turn for each handler that awaits.  How several pending turns of
   one event interleave is not fixed by the code and is not modelled: a
   pending turn is run on its own. *)
Fixpoint emit_transcript (env : Env) (listeners : nat) (data : TranscriptEvent)
    : M Connection (list (M Connection unit)) :=
  match listeners with
  | O => mret []
  | S n =>
      started ← on_transcript env data;
      pending ← emit_transcript env n data;
      mret (option_list started ++ pending)
  end.

(* connection.on(LiveTranscriptionEvents.Transcript, ...) in
   DeepgramService.createLiveConnection *)
Definition deliver_transcript (env : Env) (data : LiveTranscript)
    : M Connection (list (M Connection unit)) :=
  if JsString.present (lt_transcript data) then
    c ← get;
    emit_transcript env (transcript_listeners (deepgram (orchestrator c)))
      {| ev_text := or_else (lt_transcript data) "";
         isFinal := lt_is_final data;
         confidence := lt_confidence data |}
  else mret [].

Definition register_transcript_listener : M Connection unit :=
  modify (fun c =>
    set_orchestrator
      (VoiceOrchestrator.set_deepgram
         (DeepgramService.add_listener (deepgram (orchestrator c)))
         (orchestrator c)) c).

(* ws.on('message', async (data) => ...); None is a frame that
   JSON.parse rejects. *)
Definition on_message (env : Env) (frame : option ClientMessage) : M Connection unit :=
  try_catch
    match frame with
    | None => throw "Unexpected token in JSON"
    | Some (UserMessage t) =>
        response ← on_orchestrator (VoiceOrchestrator.processUserMessage env t);
        ws_send (AssistantMessage (text response) (Base64.encode (audio response)) None)
    | Some (UserAudio data) =>
        if negb (JsString.present data) then
          ws_send (ErrorMessage "Audio data required")
        else
          try_catch
            (let audioBuffer := Base64.decode (or_else data "") in
             r ← on_orchestrator (VoiceOrchestrator.processUserAudio env audioBuffer);
             ws_send (AssistantMessage (text r.1) (Base64.encode (audio r.1))
                                       (Some r.2)))
            (fun error => ws_send (ErrorMessage "Failed to process audio"))
    | Some UserAudioStreamStart =>
        try_catch
          (c ← get;
           let a := assistant (orchestrator c) in
           _ ← on_deepgram (DeepgramService.createLiveConnection env
                              (stt_model a) (stt_language a) true);
           _ ← register_transcript_listener;
           ws_send AudioStreamReady)
          (fun error => ws_send (ErrorMessage "Failed to start audio streaming"))
    | Some (UserAudioStreamChunk data) =>
        try_catch
          (c ← get;
           if DeepgramService.isLiveConnectionActive (deepgram (orchestrator c))
              && JsString.present data
           then on_deepgram (DeepgramService.sendAudio env
                               (Base64.decode (or_else data "")))
           else mret tt)
          (fun error => mret tt)
    | Some UserAudioStreamEnd =>
        try_catch
          (_ ← on_deepgram (DeepgramService.closeLiveConnection env);
           ws_send AudioStreamClosed)
          (fun error => mret tt)
    | Some EndSessionMessage =>
        c ← get;
        _ ← query env (EndSession (sessionId (orchestrator c)) false);
        _ ← ws_send SessionEnded;
        ws_close
    | Some (OtherMessage _) => mret tt
    end
    (fun error => ws_send (ErrorMessage "Failed to process message")).


(* ws.on('close', ...): the session is ended if it is still active. *)
Definition on_close (env : Env) : M Connection unit :=
  c ← get;
  query env (EndSession (sessionId (orchestrator c)) true).


(* wss.on('connection', ...) from the point where the session and its
   assistant have been read from the database (lines 54-70), with the
   catch that closes the handler (lines 231-235). *)
Definition start_session (env : Env) (sessionId : string) (assistant : Assistant)
    (w : World) : Outcome unit * (Connection * World) :=
  try_catch
    (_ ← ws_send (Connected sessionId);
     firstMessage ← on_orchestrator (VoiceOrchestrator.getFirstMessage env);
     match firstMessage with
     | Some fm =>
         ws_send (AssistantMessage (text fm) (Base64.encode (audio fm)) None)
     | None => mret tt
     end)
    (fun error => _ ← ws_send (ErrorMessage "Internal server error"); ws_close)
    ({| orchestrator := VoiceOrchestrator.new sessionId assistant;
        sent := []; ws_closed := false |}, w).

End WebSocket.

(* --------------------------------------------------------------------- *)
(* Sample data for the closed instances                                  *)
(* --------------------------------------------------------------------- *)

Module Sample.

Definition an_assistant : Assistant :=
  {| first_message := Some "Hello";
     system_prompt := "You are a helpful assistant.";
     voice_provider := "elevenlabs";
     voice_id := "voice-1";
     voice_settings := None;
     model_provider := "openai";
     model_name := "gpt-4";
     temperature := None;
     max_tokens := None;
     stt_provider := None;
     stt_model := None;
     stt_language := None;
     end_call_phrases := Some ["goodbye"] |}.

(* Every collaborator answers; the database is the one the migrations
   build. *)
Definition all_up : Env := fun _ r =>
  match r with
  | Sql q => if Schema.accepts q then Ack else Failure
  | ChatCompletion _ _ _ _ => Text (Some "Glad to help.")
  | ElevenLabsSpeech _ _ _ => Bytes [x52; x49; x46]
  | OpenAISpeech _ _ => Bytes [x52; x49; x46]
  | DeepgramPrerecorded _ _ _ => Text (Some "hi")
  | WhisperTranscription _ _ => Text (Some "hi")
  | DeepgramListenLive _ _ _ => Ack
  | LiveSend _ _ => Ack
  | LiveFinish _ => Ack
  end.

(* The generation provider is down. *)
Definition llm_down : Env := fun t r =>
  match r with
  | ChatCompletion _ _ _ _ => Failure
  | _ => all_up t r
  end.

(* The generation provider answers with no content. *)
Definition llm_mute : Env := fun t r =>
  match r with
  | ChatCompletion _ _ _ _ => Text None
  | _ => all_up t r
  end.

(* The database rejects every statement. *)
Definition db_down : Env := fun t r =>
  match r with
  | Sql _ => Failure
  | _ => all_up t r
  end.

Definition a_call : CallRow :=
  {| c_id := "call-1"; c_call_sid := "CA1"; c_status := "in-progress";
     c_duration_seconds := 0; c_answered_by := None;
     c_answered_at := Some 0%nat; c_ended_at := None |}.

Definition a_session : SessionRow :=
  {| s_id := "sess-1"; s_call_id := Some "call-1";
     s_status := "active"; s_ended_at := None |}.

Definition a_world : World :=
  {| trace := []; calls := [a_call]; sessions := [a_session]; messages := [] |}.

(* The same call with the stored status completed and its session ended. *)
Definition a_finished_world : World :=
  {| trace := [];
     calls := [{| c_id := "call-1"; c_call_sid := "CA1"; c_status := "completed";
                  c_duration_seconds := 42; c_answered_by := Some "human";
                  c_answered_at := Some 0%nat; c_ended_at := Some 1%nat |}];
     sessions := [{| s_id := "sess-1"; s_call_id := Some "call-1";
                     s_status := "ended"; s_ended_at := Some 2%nat |}];
     messages := [] |}.

Definition an_orchestrator : VoiceOrchestrator :=
  VoiceOrchestrator.new "sess-1" an_assistant.

Definition a_registry : gmap string ActiveCall :=
  {[ "CA1" := {| call_orchestrator := an_orchestrator;
                 call_assistant := an_assistant |} ]}.

Definition a_connection : Connection :=
  {| orchestrator := an_orchestrator; sent := []; ws_closed := false |}.

(* A connection on which audio streaming was started once. *)
Definition a_streaming_connection : Connection :=
  {| orchestrator :=
       VoiceOrchestrator.set_deepgram
         {| liveConnection := Some 0%nat; transcript_listeners := 1 |}
         an_orchestrator;
     sent := []; ws_closed := false |}.


(* The synthesis providers are down. *)
Definition tts_down : Env := fun t r =>
  match r with
  | ElevenLabsSpeech _ _ _ => Failure
  | OpenAISpeech _ _ => Failure
  | _ => all_up t r
  end.

(* The transcription provider hears nothing. *)
Definition stt_mute : Env := fun t r =>
  match r with
  | DeepgramPrerecorded _ _ _ => Text None
  | _ => all_up t r
  end.

(* The live connection refuses every chunk. *)
Definition live_send_down : Env := fun t r =>
  match r with
  | LiveSend _ _ => Failure
  | _ => all_up t r
  end.

(* An assistant configured for a generation provider other than openai. *)
Definition an_anthropic_assistant : Assistant :=
  {| first_message := None;
     system_prompt := "You are a helpful assistant.";
     voice_provider := "openai";
     voice_id := "alloy";
     voice_settings := None;
     model_provider := "anthropic";
     model_name := "claude";
     temperature := Some 20%Z;
     max_tokens := Some 100%Z;
     stt_provider := Some "whisper";
     stt_model := None;
     stt_language := Some "en-US";
     end_call_phrases := None |}.

End Sample.

(* --------------------------------------------------------------------- *)
(* Vocabulary of the statements                                          *)
(* --------------------------------------------------------------------- *)

(* A computation that leaves the object it runs on as it is (it may
   still issue requests). *)
Definition keeps_object {O A} (m : M O A) : Prop :=
  forall s r s', m s = (r, s') -> fst s' = fst s.

Definition user_says (t : string) : Message := {| role := "user"; content := t |}.
Definition assistant_says (t : string) : Message :=
  {| role := "assistant"; content := t |}.

(* The connection after ws.send was called n times with message m. *)
Definition say_to_client (m : ServerMessage) (n : nat) (c : Connection) : Connection :=
  {| orchestrator := orchestrator c;
     sent := sent c ++ repeat m n;
     ws_closed := ws_closed c |}.

(* An environment whose database was built by the migrations of the
   repository: it rejects every statement that names a column of calls
   which no migration creates. *)
Definition migrated (env : Env) : Prop :=
  forall issued q, Schema.accepts q = false -> env issued (Sql q) = Failure.


(* Two code units that are one letter in either case: the same code
   unit, or a capital letter and the code unit 32 places above it. *)
Definition same_letter (a b : ascii) : bool :=
  let '(m, n) := (nat_of_ascii a, nat_of_ascii b) in
  (m =? n)%nat ||
  (JsString.is_upper m && (n =? m + 32)%nat) ||
  (JsString.is_upper n && (m =? n + 32)%nat).

(* Two texts that are equal up to the case of their letters. *)
Fixpoint same_up_to_case (s t : string) : bool :=
  match s, t with
  | EmptyString, EmptyString => true
  | String a s', String b t' => same_letter a b && same_up_to_case s' t'
  | _, _ => false
  end.

(* Checking a property of numbers below a bound by running through them. *)
Definition below (k : nat) : list N := map N.of_nat (seq 0 k).

Definition all_below (k : nat) (p : N -> bool) : bool := forallb p (below k).

(* An orchestrator that differs from an earlier one only by messages
   appended to its history, each of them a user or an assistant message. *)
Definition appended_only (o o' : VoiceOrchestrator) : Prop :=
  exists suffix,
    o' = {| sessionId := sessionId o; assistant := assistant o;
            conversationHistory := conversationHistory o ++ suffix;
            deepgram := deepgram o |} /\
    Forall (fun m => role m = "user" \/ role m = "assistant") suffix.

(* A connection to which at most one more message was handed to ws.send. *)
Definition sent_at_most_one (c c' : Connection) : Prop :=
  sent c' = sent c \/ exists m, sent c' = sent c ++ [m].

(* The speech request generateAudio issues for a text, when the voice
   provider is one it knows. *)
Definition speech_request (a : Assistant) (t : string) : option Request :=
  if String.eqb (voice_provider a) "elevenlabs"
  then Some (ElevenLabsSpeech t (voice_id a) (voice_settings a))
  else if String.eqb (voice_provider a) "openai"
  then Some (OpenAISpeech t (voice_id a))
  else None.

(* ===================================================================== *)
(* Properties                                                            *)
(* ===================================================================== *)

(* --------------------------- strings --------------------------------- *)

Lemma startsWith_spec (s p : string) :
  JsString.startsWith s p = true <-> exists b, s = p +:+ b.
Proof.
  revert s; induction p as [|a p IH]; intros s; simpl.
  - split; [intros _; exists s; reflexivity | reflexivity].
  - destruct s as [|c s].
    + split; [discriminate | intros [b Hb]; discriminate].
    + rewrite andb_true_iff, IH. split.
      * intros [Hac [b ->]]. apply Ascii.eqb_eq in Hac as ->. exists b; reflexivity.
      * intros [b Hb]. injection Hb as -> ->. split; [apply Ascii.eqb_refl | eauto].
Qed.

(* includes is substring search: s = a ++ p ++ b for some a and b. *)
Lemma includes_spec (s p : string) :
  JsString.includes s p = true <-> exists a b, s = a +:+ p +:+ b.
Proof.
  induction s as [|c s IH].
  - cbn [JsString.includes]. rewrite orb_false_r, startsWith_spec. split.
    + intros [b Hb]. exists "", b. exact Hb.
    + intros [a [b Hab]]. destruct a; [exists b; exact Hab|discriminate].
  - cbn [JsString.includes]. rewrite orb_true_iff, startsWith_spec, IH. split.
    + intros [[b Hb] | [a [b Hab]]].
      * exists "", b. exact Hb.
      * exists (String c a), b. simpl. now rewrite Hab.
    + intros [a [b Hab]]. destruct a as [|c' a].
      * left. exists b. exact Hab.
      * right. injection Hab as -> ->. eauto.
Qed.

Lemma trimStart_blank (s : string) :
  JsString.all_whitespace s = true -> JsString.trimStart s = "".
Proof.
  induction s as [|c s IH]; simpl; [reflexivity|].
  intros [Hc Hs]%andb_true_iff. rewrite Hc. auto.
Qed.

Lemma trim_blank (s : string) :
  JsString.all_whitespace s = true -> JsString.trim s = "".
Proof. intros H. unfold JsString.trim. now rewrite trimStart_blank. Qed.

Lemma trimStart_blank_inv (s : string) :
  JsString.all_whitespace (JsString.trimStart s) = true ->
  JsString.all_whitespace s = true.
Proof.
  induction s as [|a s IH]; cbn; [reflexivity|].
  destruct (JsString.is_whitespace a) eqn:Ea; [exact IH|].
  cbn. now rewrite Ea.
Qed.

Lemma trimEnd_blank_inv (s : string) :
  JsString.trimEnd s = "" -> JsString.all_whitespace s = true.
Proof.
  induction s as [|a s IH]; cbn; [reflexivity|].
  destruct (JsString.trimEnd s); [|discriminate].
  destruct (JsString.is_whitespace a); [intros _; now apply IH | discriminate].
Qed.

(* trim leaves text exactly when some character is not white space. *)
Lemma trim_not_blank (s : string) :
  JsString.all_whitespace s = false -> JsString.truthy (JsString.trim s) = true.
Proof.
  intros Hb. unfold JsString.trim.
  destruct (JsString.trimEnd (JsString.trimStart s)) eqn:E; [|reflexivity].
  apply trimEnd_blank_inv, trimStart_blank_inv in E. congruence.
Qed.

Lemma is_upper_inv (n : nat) :
  JsString.is_upper n = true ->
  (65 <= n <= 90 \/ (192 <= n <= 222 /\ n <> 215))%nat.
Proof.
  unfold JsString.is_upper.
  rewrite orb_true_iff, !andb_true_iff, negb_true_iff, !Nat.leb_le, Nat.eqb_neq.
  tauto.
Qed.

Lemma is_upper_lowered (n : nat) :
  JsString.is_upper n = true -> JsString.is_upper (n + 32) = false.
Proof.
  intros H%is_upper_inv. unfold JsString.is_upper.
  apply orb_false_iff. split.
  - apply andb_false_iff. right. apply Nat.leb_gt. lia.
  - destruct (Nat.le_gt_cases (n + 32) 222) as [Hle|Hgt].
    + apply andb_false_iff. left. apply andb_false_iff. left. apply Nat.leb_gt. lia.
    + apply andb_false_iff. left. apply andb_false_iff. right. apply Nat.leb_gt. lia.
Qed.

(* A capital letter and the code unit 32 above it have one lower case. *)
Lemma lower_char_pair (a b : ascii) :
  JsString.is_upper (nat_of_ascii a) = true ->
  nat_of_ascii b = (nat_of_ascii a + 32)%nat ->
  JsString.lower_char a = JsString.lower_char b.
Proof.
  intros Ha Hb. unfold JsString.lower_char.
  rewrite Ha, Hb, (is_upper_lowered _ Ha), <- Hb.
  now rewrite ascii_nat_embedding.
Qed.

Lemma same_letter_lower (a b : ascii) :
  same_letter a b = true -> JsString.lower_char a = JsString.lower_char b.
Proof.
  unfold same_letter.
  rewrite !orb_true_iff, !andb_true_iff, !Nat.eqb_eq.
  intros [[H | [Ha Hb]] | [Hb Ha]].
  - f_equal. rewrite <- (ascii_nat_embedding a), <- (ascii_nat_embedding b).
    now rewrite H.
  - now apply lower_char_pair.
  - symmetry. now apply lower_char_pair.
Qed.

Lemma same_up_to_case_lower (s t : string) :
  same_up_to_case s t = true -> JsString.toLowerCase s = JsString.toLowerCase t.
Proof.
  revert t. induction s as [|a s IH]; intros [|b t]; cbn; try discriminate;
    [reflexivity|].
  intros [Hab Hst]%andb_true_iff.
  now rewrite (same_letter_lower _ _ Hab), (IH _ Hst).
Qed.

(* Two code units with one lower case are one letter in either case. *)
Lemma lower_same_letter (a b : ascii) :
  JsString.lower_char a = JsString.lower_char b -> same_letter a b = true.
Proof.
  unfold JsString.lower_char, same_letter.
  destruct (JsString.is_upper (nat_of_ascii a)) eqn:Ha;
    destruct (JsString.is_upper (nat_of_ascii b)) eqn:Hb;
    intros H; apply (f_equal nat_of_ascii) in H.
  - apply is_upper_inv in Ha as Ha', Hb as Hb'.
    rewrite !nat_ascii_embedding in H by lia.
    replace (nat_of_ascii a =? nat_of_ascii b)%nat with true
      by (symmetry; apply Nat.eqb_eq; lia).
    reflexivity.
  - apply is_upper_inv in Ha as Ha'.
    rewrite nat_ascii_embedding in H by lia.
    replace (nat_of_ascii b =? nat_of_ascii a + 32)%nat with true
      by (symmetry; apply Nat.eqb_eq; lia).
    cbn. now rewrite orb_true_r.
  - apply is_upper_inv in Hb as Hb'.
    rewrite nat_ascii_embedding in H by lia.
    replace (nat_of_ascii a =? nat_of_ascii b + 32)%nat with true
      by (symmetry; apply Nat.eqb_eq; lia).
    cbn. now rewrite orb_true_r.
  - now rewrite H, Nat.eqb_refl.
Qed.

Lemma lower_same_up_to_case (s t : string) :
  JsString.toLowerCase s = JsString.toLowerCase t -> same_up_to_case s t = true.
Proof.
  revert t. induction s as [|a s IH]; intros [|b t];
    cbn [same_up_to_case JsString.toLowerCase]; try discriminate; [reflexivity|].
  intros [= Hab Hst]. now rewrite (lower_same_letter _ _ Hab), (IH _ Hst).
Qed.

Lemma toLowerCase_app (s t : string) :
  JsString.toLowerCase (s +:+ t) = JsString.toLowerCase s +:+ JsString.toLowerCase t.
Proof. induction s as [|a s IH]; simpl; [reflexivity | now rewrite IH]. Qed.

(* A text whose lower case is x followed by y splits accordingly. *)
Lemma toLowerCase_app_inv (s x y : string) :
  JsString.toLowerCase s = x +:+ y ->
  exists s1 s2, s = s1 +:+ s2 /\
    JsString.toLowerCase s1 = x /\ JsString.toLowerCase s2 = y.
Proof.
  revert s. induction x as [|c x IH]; intros s H.
  - exists "", s. auto.
  - destruct s as [|d s]; [discriminate|]. simpl in H. injection H as Hc H.
    destruct (IH _ H) as (s1 & s2 & -> & H1 & H2).
    exists (String d s1), s2. simpl. now rewrite Hc, H1.
Qed.

(* ----------------------- computations -------------------------------- *)

Lemma bind_unfold {O A B} (m : M O A) (k : A -> M O B) (s : O * World) :
  (m ≫= k) s =
  match m s with
  | (Returned a, s') => k a s'
  | (Thrown e, s') => (Thrown e, s')
  end.
Proof. reflexivity. Qed.

Lemma bind_Returned {O A B} (m : M O A) (k : A -> M O B) s b s' :
  (m ≫= k) s = (Returned b, s') ->
  exists a s1, m s = (Returned a, s1) /\ k a s1 = (Returned b, s').
Proof.
  rewrite bind_unfold. destruct (m s) as [[a|e] s1]; [eauto | discriminate].
Qed.

Lemma bind_Thrown {O A B} (m : M O A) (k : A -> M O B) s e s' :
  (m ≫= k) s = (Thrown e, s') ->
  m s = (Thrown e, s') \/
  exists a s1, m s = (Returned a, s1) /\ k a s1 = (Thrown e, s').
Proof.
  rewrite bind_unfold. destruct (m s) as [[a|e'] s1].
  - intros H. right. exists a, s1. split; [reflexivity | exact H].
  - intros [= -> ->]. left. reflexivity.
Qed.

(* catch (error) { throw error } changes nothing. *)
Lemma try_catch_rethrow {O A} (m : M O A) (s : O * World) :
  try_catch m (fun error => throw error) s = m s.
Proof. unfold try_catch, throw. now destruct (m s) as [[a|e] s']. Qed.

Lemma keeps_ret {O A} (a : A) : keeps_object (mret a : M O A).
Proof. intros s r s' [= _ <-]. reflexivity. Qed.

Lemma keeps_throw {O A} (e : string) : keeps_object (throw e : M O A).
Proof. intros s r s' [= _ <-]. reflexivity. Qed.

Lemma keeps_request {O} env (q : Request) : keeps_object (request env q : M O Reply).
Proof. intros s r s' [= _ <-]. reflexivity. Qed.

Lemma keeps_query {O} env (q : Statement) : keeps_object (query env q : M O unit).
Proof.
  intros s r s'. unfold query.
  destruct (env _ _); try (intros [= _ <-]; reflexivity).
  destruct (Sql.run _ _); intros [= _ <-]; reflexivity.
Qed.

Lemma keeps_bind {O A B} (m : M O A) (k : A -> M O B) :
  keeps_object m -> (forall a, keeps_object (k a)) -> keeps_object (m ≫= k).
Proof.
  intros Hm Hk s r s'. rewrite bind_unfold.
  destruct (m s) as [[a|e] s1] eqn:E.
  - intros H. rewrite (Hk _ _ _ _ H). exact (Hm _ _ _ E).
  - intros [= _ <-]. exact (Hm _ _ _ E).
Qed.

Lemma keeps_get_bind {O B} (k : O -> M O B) :
  (forall o, keeps_object (k o)) -> keeps_object (get ≫= k).
Proof. intros Hk s r s' H. exact (Hk _ _ _ _ H). Qed.

Lemma keeps_saveMessage env r c :
  keeps_object (VoiceOrchestrator.saveMessage env r c).
Proof. apply keeps_get_bind. intros o. apply keeps_query. Qed.

Lemma keeps_generateLLMResponse env :
  keeps_object (VoiceOrchestrator.generateLLMResponse env).
Proof.
  apply keeps_get_bind. intros o. cbv zeta.
  destruct (String.eqb _ _); [|apply keeps_throw].
  apply keeps_bind; [|intros a; apply keeps_ret].
  apply keeps_bind; [apply keeps_request|].
  intros [| |[t|]|]; first [apply keeps_ret | apply keeps_throw].
Qed.

Lemma keeps_generateAudio env t :
  keeps_object (VoiceOrchestrator.generateAudio env t).
Proof.
  apply keeps_get_bind. intros o. cbv zeta.
  destruct (String.eqb _ _).
  - apply keeps_bind; [apply keeps_request|].
    intros [| | |]; first [apply keeps_ret | apply keeps_throw].
  - destruct (String.eqb _ _); [|apply keeps_throw].
    apply keeps_bind; [apply keeps_request|].
    intros [| | |]; first [apply keeps_ret | apply keeps_throw].
Qed.

(* ------------------------ the orchestrator --------------------------- *)

(* When the generation step is reached the user message has been pushed. *)
Lemma processUserMessage_after_save env userMessage o w w1 :
  VoiceOrchestrator.saveMessage env "user" userMessage (o, w) = (Returned tt, (o, w1)) ->
  VoiceOrchestrator.processUserMessage env userMessage (o, w) =
  (assistantResponse ← VoiceOrchestrator.generateLLMResponse env;
   _ ← VoiceOrchestrator.saveMessage env "assistant" assistantResponse;
   _ ← modify (VoiceOrchestrator.push (assistant_says assistantResponse));
   audio ← VoiceOrchestrator.generateAudio env assistantResponse;
   mret {| text := assistantResponse; audio := audio |})
    (VoiceOrchestrator.push (user_says userMessage) o, w1).
Proof.
  intros Hsave. unfold VoiceOrchestrator.processUserMessage.
  rewrite try_catch_rethrow, bind_unfold, Hsave. reflexivity.
Qed.

(** C1. A call of processUserMessage that returns has appended exactly two
    messages to the conversation history, the user message and then the
    assistant reply it returns.  When the user message was saved and the
    generation step then throws, the call throws the same error and the
    history has grown by the user message only. *)
Theorem processUserMessage_history (env : Env) (userMessage : string)
    (o : VoiceOrchestrator) (w : World) :
  (forall r o' w',
     VoiceOrchestrator.processUserMessage env userMessage (o, w)
       = (Returned r, (o', w')) ->
     conversationHistory o' =
       conversationHistory o ++ [user_says userMessage; assistant_says (text r)])
  /\
  (forall w1 e s2,
     VoiceOrchestrator.saveMessage env "user" userMessage (o, w)
       = (Returned tt, (o, w1)) ->
     VoiceOrchestrator.generateLLMResponse env
       (VoiceOrchestrator.push (user_says userMessage) o, w1) = (Thrown e, s2) ->
     VoiceOrchestrator.processUserMessage env userMessage (o, w) = (Thrown e, s2) /\
     conversationHistory (fst s2) = conversationHistory o ++ [user_says userMessage]).
Proof.
  split.
  - intros r o' w' H.
    unfold VoiceOrchestrator.processUserMessage in H.
    rewrite try_catch_rethrow in H.
    apply bind_Returned in H as ([] & [o1 w1] & Hsave & H).
    pose proof (keeps_saveMessage _ _ _ _ _ _ Hsave) as E1. cbn in E1. subst o1.
    apply bind_Returned in H as ([] & s2 & Hpush & H).
    injection Hpush as <-.
    apply bind_Returned in H as (reply & [o3 w3] & Hgen & H).
    pose proof (keeps_generateLLMResponse _ _ _ _ Hgen) as E3. cbn in E3. subst o3.
    apply bind_Returned in H as ([] & [o4 w4] & Hsave2 & H).
    pose proof (keeps_saveMessage _ _ _ _ _ _ Hsave2) as E4. cbn in E4. subst o4.
    apply bind_Returned in H as ([] & s5 & Hpush2 & H).
    injection Hpush2 as <-.
    apply bind_Returned in H as (bytes & [o6 w6] & Haudio & H).
    pose proof (keeps_generateAudio _ _ _ _ _ Haudio) as E6. cbn in E6. subst o6.
    injection H as <- <- <-. cbn. now rewrite <- app_assoc.
  - intros w1 e s2 Hsave Hgen.
    rewrite (processUserMessage_after_save _ _ _ _ _ Hsave), bind_unfold, Hgen.
    split; [reflexivity|].
    now rewrite (keeps_generateLLMResponse _ _ _ _ Hgen).
Qed.

Lemma processUserMessage_history_witness :
  (exists r o' w',
     VoiceOrchestrator.processUserMessage Sample.all_up "Hi"
       (Sample.an_orchestrator, Sample.a_world) = (Returned r, (o', w')) /\
     conversationHistory o' =
       [ {| role := "system"; content := "You are a helpful assistant." |};
         user_says "Hi"; assistant_says "Glad to help." ]) /\
  (exists s2,
     VoiceOrchestrator.processUserMessage Sample.llm_down "Hi"
       (Sample.an_orchestrator, Sample.a_world)
       = (Thrown "Failed to generate response from OpenAI", s2) /\
     conversationHistory (fst s2) =
       [ {| role := "system"; content := "You are a helpful assistant." |};
         user_says "Hi" ]).
Proof.
  split.
  - destruct (VoiceOrchestrator.processUserMessage Sample.all_up "Hi"
                (Sample.an_orchestrator, Sample.a_world))
      as [[r|e] [o' w']] eqn:E; [|vm_compute in E; discriminate].
    exists r, o', w'. split; [reflexivity|].
    pose proof (proj1 (processUserMessage_history Sample.all_up "Hi"
                         Sample.an_orchestrator Sample.a_world) r o' w' E) as H.
    rewrite H. vm_compute in E. injection E as <- _ _. reflexivity.
  - eexists.
    refine (proj2 (processUserMessage_history Sample.llm_down "Hi"
                     Sample.an_orchestrator Sample.a_world) _ _ _ _ _).
    + vm_compute. reflexivity.
    + vm_compute. reflexivity.
Defined.

(* ------------------------ the socket transport ----------------------- *)

Lemma on_transcript_interim env data c w :
  isFinal data = false ->
  WebSocket.on_transcript env data (c, w) =
  (Returned None,
   (say_to_client (InterimTranscript (ev_text data) (confidence data)) 1 c, w)).
Proof. intros H. unfold WebSocket.on_transcript. rewrite H. reflexivity. Qed.

Lemma emit_transcript_interim env data n c w :
  isFinal data = false ->
  WebSocket.emit_transcript env n data (c, w) =
  (Returned [],
   (say_to_client (InterimTranscript (ev_text data) (confidence data)) n c, w)).
Proof.
  intros H. revert c. induction n as [|n IH]; intros c.
  - unfold say_to_client. cbn. rewrite app_nil_r. now destruct c.
  - cbn [WebSocket.emit_transcript].
    rewrite bind_unfold, on_transcript_interim by exact H.
    rewrite bind_unfold, IH. unfold say_to_client. cbn. now rewrite <- app_assoc.
Qed.

Lemma on_transcript_blank env data c w :
  isFinal data = true ->
  JsString.all_whitespace (ev_text data) = true ->
  WebSocket.on_transcript env data (c, w) = (Returned None, (c, w)).
Proof.
  intros Hf Hb. unfold WebSocket.on_transcript.
  rewrite Hf, (trim_blank _ Hb). reflexivity.
Qed.

Lemma emit_transcript_blank env data n c w :
  isFinal data = true ->
  JsString.all_whitespace (ev_text data) = true ->
  WebSocket.emit_transcript env n data (c, w) = (Returned [], (c, w)).
Proof.
  intros Hf Hb. induction n as [|n IH]; [reflexivity|].
  cbn [WebSocket.emit_transcript].
  now rewrite bind_unfold, on_transcript_blank, bind_unfold, IH.
Qed.

(* A final transcript with text leaves its handler pending in a turn. *)
Lemma on_transcript_final env data c w :
  isFinal data = true ->
  JsString.all_whitespace (ev_text data) = false ->
  WebSocket.on_transcript env data (c, w) =
  (Returned (Some (WebSocket.process_final_transcription env (ev_text data))),
   (c, w)).
Proof.
  intros Hf Hb. unfold WebSocket.on_transcript.
  rewrite Hf, (trim_not_blank _ Hb). reflexivity.
Qed.

Lemma emit_transcript_final env data n c w :
  isFinal data = true ->
  JsString.all_whitespace (ev_text data) = false ->
  WebSocket.emit_transcript env n data (c, w) =
  (Returned (repeat (WebSocket.process_final_transcription env (ev_text data)) n),
   (c, w)).
Proof.
  intros Hf Hb. induction n as [|n IH]; [reflexivity|].
  cbn [WebSocket.emit_transcript].
  now rewrite bind_unfold, on_transcript_final, bind_unfold, IH.
Qed.

(* The pending turn: processUserMessage on the connection's orchestrator,
   then one assistant-message when it returned and nothing when it threw. *)
Lemma process_final_transcription_run env t c w :
  WebSocket.process_final_transcription env t (c, w) =
  let turn := VoiceOrchestrator.processUserMessage env t (orchestrator c, w) in
  (Returned tt,
   ({| orchestrator := fst (snd turn);
       sent := sent c ++
         match fst turn with
         | Returned r =>
             [AssistantMessage (text r) (Base64.encode (audio r)) (Some t)]
         | Thrown _ => []
         end;
       ws_closed := ws_closed c |},
    snd (snd turn))).
Proof.
  cbv zeta. unfold WebSocket.process_final_transcription, try_catch.
  rewrite bind_unfold. unfold WebSocket.on_orchestrator, zoom. cbn [fst snd].
  destruct (VoiceOrchestrator.processUserMessage env t (orchestrator c, w))
    as [[r|e] [o' w']]; cbn [fst snd]; [reflexivity|].
  unfold mret, M_ret, ret, WebSocket.set_orchestrator. now rewrite app_nil_r.
Qed.

(** C5. A transcription event that is not final never runs
    processUserMessage: whatever the live connection delivers with
    is_final false leaves no turn pending, leaves the orchestrator (and
    with it the conversation history) and the world untouched, and hands
    the client interim-transcript messages only, one per registered
    handler.  So a delivery that leaves a turn pending is one of a final
    event.  A final event with text that is not blank sends nothing and
    leaves one turn pending per registered handler, each the rest of the
    handler's first branch on the text of the event; and that turn runs
    processUserMessage on its text: the orchestrator and the world after
    it are those processUserMessage leaves. *)
Theorem interim_transcript_is_advisory (env : Env) (c : Connection) (w : World) :
  (forall data,
     lt_is_final data = false ->
     WebSocket.deliver_transcript env data (c, w) =
     (Returned [],
      (say_to_client
         (InterimTranscript (or_else (lt_transcript data) "") (lt_confidence data))
         (if JsString.present (lt_transcript data)
          then transcript_listeners (deepgram (orchestrator c)) else 0) c,
       w)))
  /\
  (forall data r c' w',
     WebSocket.deliver_transcript env data (c, w) = (r, (c', w')) ->
     r <> Returned [] ->
     lt_is_final data = true)
  /\
  (forall data t,
     lt_is_final data = true ->
     lt_transcript data = Some t ->
     JsString.all_whitespace t = false ->
     WebSocket.deliver_transcript env data (c, w) =
     (Returned (repeat (WebSocket.process_final_transcription env t)
                       (transcript_listeners (deepgram (orchestrator c)))),
      (c, w)))
  /\
  (forall t,
     let turn := VoiceOrchestrator.processUserMessage env t (orchestrator c, w) in
     let after := WebSocket.process_final_transcription env t (c, w) in
     orchestrator (fst (snd after)) = fst (snd turn) /\
     snd (snd after) = snd (snd turn)).
Proof.
  assert (Hinterim : forall data,
     lt_is_final data = false ->
     WebSocket.deliver_transcript env data (c, w) =
     (Returned [],
      (say_to_client
         (InterimTranscript (or_else (lt_transcript data) "") (lt_confidence data))
         (if JsString.present (lt_transcript data)
          then transcript_listeners (deepgram (orchestrator c)) else 0) c,
       w))).
  { intros data H. unfold WebSocket.deliver_transcript.
    destruct (JsString.present (lt_transcript data)).
    - rewrite bind_unfold. cbn [get fst].
      now rewrite emit_transcript_interim.
    - unfold say_to_client. cbn. rewrite app_nil_r. now destruct c. }
  split; [exact Hinterim|]. split; [|split].
  - intros data r c' w' H Hpending.
    destruct (lt_is_final data) eqn:Hf; [reflexivity|].
    rewrite (Hinterim data Hf) in H. injection H as <- _ _. now destruct Hpending.
  - intros data t Hf Ht Hb. unfold WebSocket.deliver_transcript. rewrite Ht.
    destruct t as [|a t]; [discriminate|].
    cbn [JsString.present JsString.truthy or_else].
    rewrite bind_unfold. cbn [get fst].
    now apply emit_transcript_final.
  - intros t. cbv zeta. rewrite process_final_transcription_run. cbv zeta.
    split; reflexivity.
Qed.

Lemma interim_transcript_is_advisory_witness :
  WebSocket.deliver_transcript Sample.all_up
    {| lt_transcript := Some "hel"; lt_is_final := false; lt_confidence := Some 930%Z |}
    (Sample.a_streaming_connection, Sample.a_world) =
  (Returned [],
   ({| orchestrator := orchestrator Sample.a_streaming_connection;
       sent := [InterimTranscript "hel" (Some 930%Z)];
       ws_closed := false |}, Sample.a_world))
  /\
  WebSocket.deliver_transcript Sample.all_up
    {| lt_transcript := Some "hello"; lt_is_final := true; lt_confidence := None |}
    (Sample.a_streaming_connection, Sample.a_world) =
  (Returned [WebSocket.process_final_transcription Sample.all_up "hello"],
   (Sample.a_streaming_connection, Sample.a_world))
  /\
  conversationHistory
    (orchestrator (fst (snd (WebSocket.process_final_transcription Sample.all_up
       "hello" (Sample.a_streaming_connection, Sample.a_world))))) =
  conversationHistory (orchestrator Sample.a_streaming_connection)
    ++ [user_says "hello"; assistant_says "Glad to help."]
  /\
  lt_is_final {| lt_transcript := Some "hello"; lt_is_final := true;
                 lt_confidence := None |} = true.
Proof.
  pose proof (interim_transcript_is_advisory Sample.all_up
                Sample.a_streaming_connection Sample.a_world) as (H1 & H2 & H3 & H4).
  split; [|split; [|split]].
  - rewrite H1 by reflexivity. reflexivity.
  - apply (H3 {| lt_transcript := Some "hello"; lt_is_final := true;
                 lt_confidence := None |} "hello"); reflexivity.
  - specialize (H4 "hello"). cbv zeta in H4. destruct H4 as [-> _].
    vm_compute. reflexivity.
  - eapply H2.
    + apply (H3 {| lt_transcript := Some "hello"; lt_is_final := true;
                   lt_confidence := None |} "hello"); reflexivity.
    + discriminate.
Defined.

(** C10. A final transcript whose text is empty or only white space starts
    no turn: each call of the transcript handler on it, and its delivery
    to all the registered handlers, leaves no turn pending and leaves the
    connection (orchestrator, history, messages sent) and the world (no
    request issued) exactly as they were. *)
Theorem blank_final_transcript_is_dropped (env : Env) (c : Connection) (w : World)
    (t : string) (conf : option Z) :
  JsString.all_whitespace t = true ->
  WebSocket.on_transcript env {| ev_text := t; isFinal := true; confidence := conf |}
    (c, w) = (Returned None, (c, w))
  /\
  WebSocket.deliver_transcript env
    {| lt_transcript := Some t; lt_is_final := true; lt_confidence := conf |} (c, w)
    = (Returned [], (c, w)).
Proof.
  intros Hb. split.
  - now apply on_transcript_blank.
  - unfold WebSocket.deliver_transcript.
    cbn [lt_transcript lt_is_final lt_confidence].
    destruct t as [|a t]; [reflexivity|].
    cbn [JsString.present JsString.truthy or_else].
    rewrite bind_unfold. cbn [get fst].
    apply emit_transcript_blank; [reflexivity | exact Hb].
Qed.

(* The text of the instance is a space, a no-break space (U+00A0) and a
   TAB. *)
Lemma blank_final_transcript_is_dropped_witness :
  JsString.all_whitespace (String " " (String "160" (String "009" ""))) = true /\
  WebSocket.deliver_transcript Sample.all_up
    {| lt_transcript := Some (String " " (String "160" (String "009" "")));
       lt_is_final := true; lt_confidence := None |}
    (Sample.a_streaming_connection, Sample.a_world)
    = (Returned [], (Sample.a_streaming_connection, Sample.a_world)).
Proof.
  split; [reflexivity|].
  apply (blank_final_transcript_is_dropped Sample.all_up
           Sample.a_streaming_connection
           Sample.a_world (String " " (String "160" (String "009" ""))) None).
  reflexivity.
Defined.

(** C8. A user-audio message whose data field is absent is answered with
    the error message "Audio data required" and nothing else happens: no
    request reaches any provider or the database (the world is unchanged)
    and the orchestrator, with its conversation history, is unchanged. *)
Theorem user_audio_without_data (env : Env) (c : Connection) (w : World) :
  WebSocket.on_message env (Some (UserAudio None)) (c, w) =
  (Returned tt, (say_to_client (ErrorMessage "Audio data required") 1 c, w)).
Proof.
  unfold WebSocket.on_message, try_catch.
  cbn [JsString.present negb].
  unfold WebSocket.ws_send, modify, say_to_client. cbn [fst snd repeat].
  reflexivity.
Qed.

Lemma sendAudio_closed env audioData d w :
  liveConnection d = None ->
  DeepgramService.sendAudio env audioData (d, w) =
  (Thrown "No active live connection", (d, w)).
Proof.
  intros H. unfold DeepgramService.sendAudio. rewrite bind_unfold. cbn [get fst].
  now rewrite H.
Qed.

(** C6. An audio chunk that arrives while the streaming transcription
    session is closed (liveConnection is null) is dropped: the chunk
    handler returns normally, nothing is forwarded to the provider (the
    world is unchanged), nothing is sent to the client and the connection
    state is unchanged. *)
Theorem chunk_while_closed_is_dropped (env : Env) (c : Connection) (w : World)
    (data : option string) :
  liveConnection (deepgram (orchestrator c)) = None ->
  WebSocket.on_message env (Some (UserAudioStreamChunk data)) (c, w)
    = (Returned tt, (c, w)).
Proof.
  intros H. unfold WebSocket.on_message, try_catch.
  rewrite bind_unfold. cbn [get fst].
  unfold DeepgramService.isLiveConnectionActive. rewrite H. reflexivity.
Qed.

Lemma chunk_while_closed_is_dropped_witness :
  liveConnection (deepgram (orchestrator Sample.a_connection)) = None /\
  WebSocket.on_message Sample.all_up (Some (UserAudioStreamChunk (Some "AAEC")))
    (Sample.a_connection, Sample.a_world)
    = (Returned tt, (Sample.a_connection, Sample.a_world)).
Proof.
  split; [reflexivity|].
  apply (chunk_while_closed_is_dropped Sample.all_up Sample.a_connection
           Sample.a_world (Some "AAEC")).
  reflexivity.
Defined.

(* ------------------------ the telephony bridge ----------------------- *)

Lemma truthy_nonempty (s : string) : s <> "" -> JsString.truthy s = true.
Proof. destruct s; [congruence | reflexivity]. Qed.

(* The end-phrase test is substring search on the lower-cased texts. *)
Lemma shouldEnd_spec (speech : string) (endPhrases : list string) :
  Twilio.shouldEnd speech endPhrases = true <->
  exists phrase, In phrase endPhrases /\
    exists a b, JsString.toLowerCase speech
                = a +:+ JsString.toLowerCase phrase +:+ b.
Proof.
  unfold Twilio.shouldEnd. rewrite existsb_exists.
  split; intros [phrase [Hin H]]; exists phrase; (split; [exact Hin|]);
    now apply includes_spec.
Qed.

(* "well, goodbye then" in any letter case ends a call whose end phrases
   are ["goodbye"]. *)
Lemma goodbye_in_any_case (speech : string) :
  JsString.toLowerCase speech = "well, goodbye then" ->
  Twilio.shouldEnd speech ["goodbye"] = true.
Proof. intros H. unfold Twilio.shouldEnd. cbn. now rewrite H. Qed.

(* The end-phrase test is case-insensitive substring matching: it holds
   exactly when the speech contains a text that is equal to one of the
   phrases up to the case of its letters. *)
Lemma shouldEnd_case_insensitive (speech : string) (endPhrases : list string) :
  Twilio.shouldEnd speech endPhrases = true <->
  exists phrase, In phrase endPhrases /\
    exists a m b, speech = a +:+ m +:+ b /\ same_up_to_case m phrase = true.
Proof.
  rewrite shouldEnd_spec. split.
  - intros (phrase & Hin & a' & b' & H). exists phrase. split; [exact Hin|].
    apply toLowerCase_app_inv in H as (a & mb & -> & _ & H).
    apply toLowerCase_app_inv in H as (m & b & -> & Hm & _).
    exists a, m, b. split; [reflexivity|]. now apply lower_same_up_to_case.
  - intros (phrase & Hin & a & m & b & -> & Hm). exists phrase. split; [exact Hin|].
    exists (JsString.toLowerCase a), (JsString.toLowerCase b).
    now rewrite !toLowerCase_app, (same_up_to_case_lower _ _ Hm).
Qed.

Lemma twiml_say_and_hangup base_url t :
  has_hangup (TwilioService.generateTwiML base_url (Twilio.say_and_hangup t)) = true /\
  has_gather (TwilioService.generateTwiML base_url (Twilio.say_and_hangup t)) = false /\
  (t <> "" ->
   speaks t (TwilioService.generateTwiML base_url (Twilio.say_and_hangup t)) = true).
Proof.
  destruct t as [|a t]; cbn; repeat split; try congruence.
  intros _. now rewrite Ascii.eqb_refl, String.eqb_refl.
Qed.

Lemma twiml_say_and_gather base_url callSid t :
  has_gather (TwilioService.generateTwiML base_url
                (Twilio.say_and_gather base_url callSid t)) = true /\
  has_hangup (TwilioService.generateTwiML base_url
                (Twilio.say_and_gather base_url callSid t)) = false /\
  (t <> "" ->
   speaks t (TwilioService.generateTwiML base_url
               (Twilio.say_and_gather base_url callSid t)) = true).
Proof.
  destruct t as [|a t]; cbn; repeat split; try congruence.
  intros _. now rewrite Ascii.eqb_refl, String.eqb_refl.
Qed.

(** C7. A speech-result request without a SpeechResult field is answered
    with the re-prompt and a new gather instruction and no hangup,
    whatever else the request holds and whether or not the call is
    registered; the registry and the world are left as they were. *)
Theorem gather_without_speech_reprompts (env : Env) (base_url : string)
    (req : GatherRequest) (activeCalls : gmap string ActiveCall) (w : World) :
  SpeechResult req = None ->
  exists markup,
    Twilio.gather env base_url req (activeCalls, w)
      = (Returned (Xml markup), (activeCalls, w)) /\
    speaks "I didn't catch that. Could you please repeat?" markup = true /\
    has_gather markup = true /\
    has_hangup markup = false.
Proof.
  intros H. unfold Twilio.gather, try_catch. rewrite H. cbn.
  eexists. split; [reflexivity|]. cbn. auto.
Qed.

Lemma gather_without_speech_reprompts_witness :
  exists markup,
    Twilio.gather Sample.all_up "https://voice.example"
      {| query_call_sid := None; gather_CallSid := "CA1"; SpeechResult := None |}
      (Sample.a_registry, Sample.a_world)
      = (Returned (Xml markup), (Sample.a_registry, Sample.a_world)) /\
    speaks "I didn't catch that. Could you please repeat?" markup = true /\
    has_gather markup = true /\
    has_hangup markup = false.
Proof.
  apply (gather_without_speech_reprompts Sample.all_up "https://voice.example"
           {| query_call_sid := None; gather_CallSid := "CA1"; SpeechResult := None |}).
  reflexivity.
Defined.

(** C2 (as amended). For a speech-result request with non-empty speech and
    a registered orchestrator whose turn (processUserMessage) returns a
    reply: the speech is tested against the end phrases by substring search
    on the lower-cased texts, that is, it matches exactly when it contains
    a text equal to one of the phrases up to the case of its letters; on a
    match the registry entry is removed and
    the markup holds a hangup and no gather; on no match the entry stays
    (with the orchestrator as the turn left it) and the markup holds a
    gather and no hangup.  In both cases a non-empty reply is spoken. *)
Theorem gather_end_phrase (env : Env) (base_url : string) (req : GatherRequest)
    (activeCalls : gmap string ActiveCall) (w : World)
    (activeCall : ActiveCall) (speech : string)
    (r : TurnResult) (o' : VoiceOrchestrator) (w' : World) :
  let callSid := or_else (query_call_sid req) (gather_CallSid req) in
  let endPhrases := default [] (end_call_phrases (call_assistant activeCall)) in
  SpeechResult req = Some speech ->
  speech <> "" ->
  activeCalls !! callSid = Some activeCall ->
  VoiceOrchestrator.processUserMessage env speech (call_orchestrator activeCall, w)
    = (Returned r, (o', w')) ->
  (Twilio.shouldEnd speech endPhrases = true <->
   exists phrase, In phrase endPhrases /\
     exists a b, JsString.toLowerCase speech
                 = a +:+ JsString.toLowerCase phrase +:+ b)
  /\
  (Twilio.shouldEnd speech endPhrases = true <->
   exists phrase, In phrase endPhrases /\
     exists a m b, speech = a +:+ m +:+ b /\ same_up_to_case m phrase = true)
  /\
  exists markup activeCalls',
    Twilio.gather env base_url req (activeCalls, w)
      = (Returned (Xml markup), (activeCalls', w')) /\
    (text r <> "" -> speaks (text r) markup = true) /\
    if Twilio.shouldEnd speech endPhrases
    then activeCalls' = delete callSid activeCalls /\
         has_hangup markup = true /\ has_gather markup = false
    else activeCalls' = <[callSid := Twilio.set_orchestrator o' activeCall]> activeCalls /\
         has_gather markup = true /\ has_hangup markup = false.
Proof.
  intros callSid endPhrases Hspeech Hne Hreg Hturn.
  split; [apply shouldEnd_spec|].
  split; [apply shouldEnd_case_insensitive|].
  unfold Twilio.gather, try_catch. fold callSid. rewrite Hspeech.
  cbn [JsString.present or_else]. rewrite (truthy_nonempty _ Hne). cbn [negb].
  rewrite bind_unfold. cbn [get fst]. rewrite Hreg.
  rewrite bind_unfold. unfold Twilio.on_orchestrator, zoom. cbn [fst snd].
  rewrite Hturn. fold endPhrases.
  destruct (Twilio.shouldEnd speech endPhrases).
  - rewrite bind_unfold. cbn [modify fst snd]. unfold mret, M_ret, ret.
    do 2 eexists. split; [reflexivity|].
    destruct (twiml_say_and_hangup base_url (text r)) as (Hh & Hg & Hs).
    split; [exact Hs|]. split; [|split; assumption].
    apply map_eq. intros k. destruct (decide (k = callSid)) as [->|Hk].
    + now rewrite !lookup_delete_eq.
    + now rewrite !lookup_delete_ne, lookup_alter_ne by congruence.
  - unfold mret, M_ret, ret.
    do 2 eexists. split; [reflexivity|].
    destruct (twiml_say_and_gather base_url callSid (text r)) as (Hg & Hh & Hs).
    split; [exact Hs|]. split; [|split; assumption].
    apply map_eq. intros k. destruct (decide (k = callSid)) as [->|Hk].
    + now rewrite lookup_alter_eq, lookup_insert_eq, Hreg.
    + now rewrite lookup_alter_ne, lookup_insert_ne by congruence.
Qed.

Lemma gather_end_phrase_witness :
  exists markup activeCalls' w',
    Twilio.gather Sample.all_up "https://voice.example"
      {| query_call_sid := Some "CA1"; gather_CallSid := "CA1";
         SpeechResult := Some "Well, GOODBYE then" |}
      (Sample.a_registry, Sample.a_world)
      = (Returned (Xml markup), (activeCalls', w')) /\
    activeCalls' = delete "CA1" Sample.a_registry /\
    has_hangup markup = true /\ has_gather markup = false.
Proof.
  destruct (VoiceOrchestrator.processUserMessage Sample.all_up "Well, GOODBYE then"
              (Sample.an_orchestrator, Sample.a_world))
    as [[r|e] [o' w']] eqn:E; [|vm_compute in E; discriminate].
  destruct (gather_end_phrase Sample.all_up "https://voice.example"
              {| query_call_sid := Some "CA1"; gather_CallSid := "CA1";
                 SpeechResult := Some "Well, GOODBYE then" |}
              Sample.a_registry Sample.a_world
              {| call_orchestrator := Sample.an_orchestrator;
                 call_assistant := Sample.an_assistant |}
              "Well, GOODBYE then" r o' w'
              eq_refl ltac:(discriminate) eq_refl E)
    as (_ & _ & markup & activeCalls' & Hrun & _ & Hcase).
  exists markup, activeCalls', w'. split; [exact Hrun | exact Hcase].
Defined.

(** C2, the claim as stated fails where the turn fails.  With the
    generation provider down, a registered call and the end phrases
    ["goodbye"]: the speech "Well, GOODBYE then" matches, yet the registry
    entry is still there afterwards; and the speech "hello" does not
    match, yet the markup holds a hangup and no gather.  And a turn that
    succeeds with an empty reply yields a gather with nothing spoken. *)
Lemma gather_end_phrase_counterexample :
  (Sample.a_registry !! "CA1" <> None /\
   Twilio.shouldEnd "Well, GOODBYE then" ["goodbye"] = true /\
   exists markup activeCalls' w',
     Twilio.gather Sample.llm_down "https://voice.example"
       {| query_call_sid := Some "CA1"; gather_CallSid := "CA1";
          SpeechResult := Some "Well, GOODBYE then" |}
       (Sample.a_registry, Sample.a_world)
       = (Returned (Xml markup), (activeCalls', w')) /\
     activeCalls' !! "CA1" <> None)
  /\
  (Twilio.shouldEnd "hello" ["goodbye"] = false /\
   exists markup activeCalls' w',
     Twilio.gather Sample.llm_down "https://voice.example"
       {| query_call_sid := Some "CA1"; gather_CallSid := "CA1";
          SpeechResult := Some "hello" |}
       (Sample.a_registry, Sample.a_world)
       = (Returned (Xml markup), (activeCalls', w')) /\
     has_gather markup = false /\ has_hangup markup = true)
  /\
  (exists activeCalls' w',
     Twilio.gather Sample.llm_mute "https://voice.example"
       {| query_call_sid := Some "CA1"; gather_CallSid := "CA1";
          SpeechResult := Some "hello" |}
       (Sample.a_registry, Sample.a_world)
       = (Returned (Xml [Gather ["speech"]
                           (Some "https://voice.example/api/v1/twilio/gather?call_sid=CA1")
                           3 "auto" "experimental_conversations" []]),
          (activeCalls', w'))).
Proof.
  split; [|split].
  - split; [vm_compute; discriminate|]. split; [vm_compute; reflexivity|].
    do 3 eexists. split; [vm_compute; reflexivity|]. vm_compute. discriminate.
  - split; [vm_compute; reflexivity|].
    do 3 eexists. split; [vm_compute; reflexivity|].
    split; vm_compute; reflexivity.
  - do 2 eexists. vm_compute. reflexivity.
Qed.

Lemma query_Returned {O} env (q : Statement) (o o' : O) (w w' : World) :
  query env q (o, w) = (Returned tt, (o', w')) ->
  o' = o /\ env (trace w) (Sql q) = Ack /\ Sql.run q (log (Sql q) w) = Some w'.
Proof.
  unfold query. cbn [fst snd].
  destruct (env (trace w) (Sql q)); try discriminate.
  destruct (Sql.run q (log (Sql q) w)); [|discriminate].
  intros [= <- <-]. auto.
Qed.

Lemma where_In {A} (p : A -> bool) (f : A -> A) (rows : list A) (r : A) :
  In r (Sql.where_ p f rows) ->
  exists r0, In r0 rows /\ r = if p r0 then f r0 else r0.
Proof.
  unfold Sql.where_. rewrite in_map_iff. intros [r0 [<- Hin]]. eauto.
Qed.

(* ------------------- the status callback and the schema -------------- *)

(* The calls update of the status handler names updated_at, a column that
   calls does not have, whatever status it reports. *)
Lemma UpdateCall_rejected (st : string) (d : Z) (ab : option string) (sid : string) :
  Schema.accepts (UpdateCall st d ab sid) = false.
Proof.
  unfold Schema.accepts. cbn [Schema.calls_columns]. rewrite !forallb_app.
  assert (forallb (Schema.has_column Schema.calls_table) ["updated_at"; "call_sid"]
          = false) as -> by (vm_compute; reflexivity).
  now rewrite !andb_false_r.
Qed.

(* The sample database is one the migrations build. *)
Lemma all_up_migrated : migrated Sample.all_up.
Proof. intros issued q H. unfold Sample.all_up. now rewrite H. Qed.

(* On a migrated database the handler leaves its try at the first
   statement, with nothing done but the request. *)
Lemma status_on_migrated env req (activeCalls : gmap string ActiveCall) w :
  migrated env ->
  Twilio.status env req (activeCalls, w) =
  (Returned (Plain 500 "Error"),
   (activeCalls,
    log (Sql (UpdateCall (CallStatus req) (num_or_else (CallDuration req) 0)
                (AnsweredBy req) (status_CallSid req))) w)).
Proof.
  intros Hdb. unfold Twilio.status, try_catch. rewrite bind_unfold.
  unfold query at 1. cbn [fst snd].
  now rewrite (Hdb _ _ (UpdateCall_rejected _ _ _ _)).
Qed.

(** C3. The clean-up of the status handler is never reached.  On a
    database built by the migrations of the repository the calls update,
    the handler's first statement, is rejected, because it assigns
    calls.updated_at and no migration creates that column.  Every status
    callback, also one that reports completed or failed for a call in the
    registry, is therefore answered 500 Error: the registry is left as it
    was, the calls update is the only request issued (the statement that
    ends the sessions is never sent) and no sessions row changes. *)
Theorem status_cleanup_is_never_reached (env : Env) (req : StatusRequest)
    (activeCalls : gmap string ActiveCall) (w : World) :
  migrated env ->
  exists w',
    Twilio.status env req (activeCalls, w)
      = (Returned (Plain 500 "Error"), (activeCalls, w')) /\
    trace w' = trace w ++
      [Sql (UpdateCall (CallStatus req) (num_or_else (CallDuration req) 0)
              (AnsweredBy req) (status_CallSid req))] /\
    sessions w' = sessions w.
Proof.
  intros Hdb. eexists. split; [now apply status_on_migrated|].
  split; reflexivity.
Qed.

Lemma status_cleanup_is_never_reached_witness :
  Sample.a_registry !! "CA1" <> None /\
  exists w',
    Twilio.status Sample.all_up
      {| status_CallSid := "CA1"; CallStatus := "completed";
         CallDuration := Some 42%Z; AnsweredBy := Some "human" |}
      (Sample.a_registry, Sample.a_world)
      = (Returned (Plain 500 "Error"), (Sample.a_registry, w')) /\
    map s_status (sessions w') = ["active"].
Proof.
  split; [vm_compute; discriminate|].
  destruct (status_cleanup_is_never_reached Sample.all_up
              {| status_CallSid := "CA1"; CallStatus := "completed";
                 CallDuration := Some 42%Z; AnsweredBy := Some "human" |}
              Sample.a_registry Sample.a_world all_up_migrated)
    as (w' & Hrun & _ & Hsessions).
  exists w'. split; [exact Hrun|]. rewrite Hsessions. reflexivity.
Defined.



(* ----------------------------- base64 -------------------------------- *)

Lemma all_below_spec (k : nat) (p : N -> bool) :
  all_below k p = true -> forall n, (n < N.of_nat k)%N -> p n = true.
Proof.
  unfold all_below, below. rewrite forallb_forall. intros H n Hn.
  apply H. apply in_map_iff. exists (N.to_nat n).
  split; [apply N2Nat.id|]. apply in_seq. lia.
Qed.

Lemma byte_below (x : byte) : (Byte.to_N x < N.of_nat 256)%N.
Proof. pose proof (Byte.to_N_bounded x). cbn. lia. Qed.

Lemma to_byte_to_N (x : byte) : Base64.to_byte (Byte.to_N x) = x.
Proof.
  unfold Base64.to_byte.
  assert (H : N.land (Byte.to_N x) 255 = Byte.to_N x).
  { apply N.eqb_eq.
    apply (all_below_spec 256 (fun n => N.land n 255 =? n)%N);
      [vm_compute; reflexivity | apply byte_below]. }
  now rewrite H, Byte.of_to_N.
Qed.

(* Every sextet value is written as a character that reads back as it. *)
Lemma unbase64_table (v : N) :
  (v < 64)%N -> Base64.unbase64 (Base64.table v) = Some v.
Proof.
  intros Hv.
  pose proof (all_below_spec 64
                (fun v => match Base64.unbase64 (Base64.table v) with
                          | Some v' => (v' =? v)%N
                          | None => false
                          end) ltac:(vm_compute; reflexivity) v Hv) as H.
  cbv beta in H. destruct (Base64.unbase64 (Base64.table v)); [|discriminate].
  apply N.eqb_eq in H. now subst.
Qed.

Lemma s0_bound x : (Base64.s0 (Byte.to_N x) < 64)%N.
Proof.
  apply N.ltb_lt.
  apply (all_below_spec 256 (fun a => Base64.s0 a <? 64)%N);
    [vm_compute; reflexivity | apply byte_below].
Qed.

Lemma s3_bound x : (Base64.s3 (Byte.to_N x) < 64)%N.
Proof.
  apply N.ltb_lt.
  apply (all_below_spec 256 (fun a => Base64.s3 a <? 64)%N);
    [vm_compute; reflexivity | apply byte_below].
Qed.

(* A property of two numbers below their bounds, checked on all pairs. *)
Lemma all_below2 (k1 k2 : nat) (p : N -> N -> bool) :
  all_below k1 (fun a => all_below k2 (p a)) = true ->
  forall a b, (a < N.of_nat k1)%N -> (b < N.of_nat k2)%N -> p a b = true.
Proof.
  intros H a b Ha Hb.
  apply (all_below_spec k2 (p a)); [|exact Hb].
  exact (all_below_spec k1 (fun a => all_below k2 (p a)) H a Ha).
Qed.

(* The parts of a byte that go into different sextets. *)
Lemma low2_below x : (N.land (Byte.to_N x) 3 < N.of_nat 4)%N.
Proof.
  apply N.ltb_lt.
  apply (all_below_spec 256 (fun a => N.land a 3 <? N.of_nat 4)%N);
    [vm_compute; reflexivity | apply byte_below].
Qed.

Lemma high4_below x : (N.shiftr (Byte.to_N x) 4 < N.of_nat 16)%N.
Proof.
  apply N.ltb_lt.
  apply (all_below_spec 256 (fun a => N.shiftr a 4 <? N.of_nat 16)%N);
    [vm_compute; reflexivity | apply byte_below].
Qed.

Lemma low4_below x : (N.land (Byte.to_N x) 15 < N.of_nat 16)%N.
Proof.
  apply N.ltb_lt.
  apply (all_below_spec 256 (fun a => N.land a 15 <? N.of_nat 16)%N);
    [vm_compute; reflexivity | apply byte_below].
Qed.

Lemma high2_below x : (N.shiftr (Byte.to_N x) 6 < N.of_nat 4)%N.
Proof.
  apply N.ltb_lt.
  apply (all_below_spec 256 (fun a => N.shiftr a 6 <? N.of_nat 4)%N);
    [vm_compute; reflexivity | apply byte_below].
Qed.

Lemma s1_bound x y : (Base64.s1 (Byte.to_N x) (Byte.to_N y) < 64)%N.
Proof.
  unfold Base64.s1. apply N.ltb_lt.
  apply (all_below2 4 16 (fun l h => N.lor (N.shiftl l 4) h <? 64)%N);
    [vm_compute; reflexivity | apply low2_below | apply high4_below].
Qed.

Lemma s2_bound x y : (Base64.s2 (Byte.to_N x) (Byte.to_N y) < 64)%N.
Proof.
  unfold Base64.s2. apply N.ltb_lt.
  apply (all_below2 16 4 (fun l h => N.lor (N.shiftl l 2) h <? 64)%N);
    [vm_compute; reflexivity | apply low4_below | apply high2_below].
Qed.

(* The first byte of a group comes back from its first two sextets. *)
Lemma d0_s0_s1 x y :
  Base64.d0 (Base64.s0 (Byte.to_N x)) (Base64.s1 (Byte.to_N x) (Byte.to_N y))
  = Byte.to_N x.
Proof.
  unfold Base64.s1. apply N.eqb_eq.
  apply (all_below2 256 16
           (fun a h => Base64.d0 (Base64.s0 a)
                         (N.lor (N.shiftl (N.land a 3) 4) h) =? a)%N);
    [vm_compute; reflexivity | apply byte_below | apply high4_below].
Qed.

(* The third byte comes back from the last two sextets. *)
Lemma d2_s2_s3 y z :
  Base64.d2 (Base64.s2 (Byte.to_N y) (Byte.to_N z)) (Base64.s3 (Byte.to_N z))
  = Byte.to_N z.
Proof.
  unfold Base64.s2. apply N.eqb_eq.
  apply (all_below2 256 16
           (fun c l => Base64.d2 (N.lor (N.shiftl l 2) (N.shiftr c 6))
                         (Base64.s3 c) =? c)%N);
    [vm_compute; reflexivity | apply byte_below | apply low4_below].
Qed.

(* The second byte comes back from the two middle sextets: the bits they
   take from the first and the third byte are masked away. *)
Lemma d1_s1_s2 x y z :
  Base64.d1 (Base64.s1 (Byte.to_N x) (Byte.to_N y))
            (Base64.s2 (Byte.to_N y) (Byte.to_N z))
  = Byte.to_N y.
Proof.
  unfold Base64.d1.
  assert (Hhi : N.land (Base64.s1 (Byte.to_N x) (Byte.to_N y)) 15
                = N.shiftr (Byte.to_N y) 4).
  { unfold Base64.s1. apply N.eqb_eq.
    apply (all_below2 4 16
             (fun l h => N.land (N.lor (N.shiftl l 4) h) 15 =? h)%N);
      [vm_compute; reflexivity | apply low2_below | apply high4_below]. }
  assert (Hlo : N.land (Base64.s2 (Byte.to_N y) (Byte.to_N z)) 60
                = N.shiftl (N.land (Byte.to_N y) 15) 2).
  { unfold Base64.s2. apply N.eqb_eq.
    apply (all_below2 16 4
             (fun l h => N.land (N.lor (N.shiftl l 2) h) 60 =? N.shiftl l 2)%N);
      [vm_compute; reflexivity | apply low4_below | apply high2_below]. }
  rewrite Hhi, Hlo.
  apply N.eqb_eq.
  apply (all_below_spec 256
           (fun b => N.lor (N.shiftl (N.shiftr b 4) 4)
                           (N.shiftr (N.shiftl (N.land b 15) 2) 2) =? b)%N);
    [vm_compute; reflexivity | apply byte_below].
Qed.

Lemma tail1 (a : N) : N.shiftl (N.land a 3) 4 = Base64.s1 a 0.
Proof. unfold Base64.s1. now rewrite N.shiftr_0_l, N.lor_0_r. Qed.

Lemma tail2 (b : N) : N.shiftl (N.land b 15) 2 = Base64.s2 b 0.
Proof. unfold Base64.s2. now rewrite N.shiftr_0_l, N.lor_0_r. Qed.

Lemma list_ind3 {A} (P : list A -> Prop) :
  P [] -> (forall a, P [a]) -> (forall a b, P [a; b]) ->
  (forall a b c l, P l -> P (a :: b :: c :: l)) ->
  forall l, P l.
Proof.
  intros H0 H1 H2 H3 l.
  enough (H : P l /\ (forall a, P (a :: l)) /\ (forall a b, P (a :: b :: l)))
    by apply H.
  induction l as [|c l (IH0 & IH1 & IH2)]; [auto|].
  split; [apply IH1|]. split; [intros a; apply IH2|]. intros a b. now apply H3.
Qed.

Lemma sextets_cons (v : N) (s : string) :
  (v < 64)%N ->
  Base64.sextets (String (Base64.table v) s) = v :: Base64.sextets s.
Proof. intros Hv. cbn [Base64.sextets]. now rewrite unbase64_table. Qed.

(** C9. Audio bytes encoded for transport with toString('base64') and
    decoded back with Buffer.from(text, 'base64') are the original bytes:
    decode (encode buf) = buf for every buffer. *)
Theorem base64_round_trip (buf : Buffer) :
  Base64.decode (Base64.encode buf) = buf.
Proof.
  unfold Base64.decode. induction buf as [|x|x y|x y z rest IH] using list_ind3.
  - reflexivity.
  - cbn [Base64.encode]. rewrite tail1.
    change (Base64.s1 (Byte.to_N x) 0)
      with (Base64.s1 (Byte.to_N x) (Byte.to_N x00)).
    rewrite !sextets_cons by (apply s0_bound || apply s1_bound).
    cbn [Base64.sextets Base64.unbase64 Base64.pad Base64.decode_groups].
    rewrite d0_s0_s1, to_byte_to_N. reflexivity.
  - cbn [Base64.encode]. rewrite tail2.
    change (Base64.s2 (Byte.to_N y) 0)
      with (Base64.s2 (Byte.to_N y) (Byte.to_N x00)).
    rewrite !sextets_cons by (apply s0_bound || apply s1_bound || apply s2_bound).
    cbn [Base64.sextets Base64.unbase64 Base64.pad Base64.decode_groups].
    rewrite d0_s0_s1, d1_s1_s2, !to_byte_to_N. reflexivity.
  - cbn [Base64.encode].
    rewrite !sextets_cons
      by (apply s0_bound || apply s1_bound || apply s2_bound || apply s3_bound).
    cbn [Base64.decode_groups].
    now rewrite d0_s0_s1, d1_s1_s2, d2_s2_s3, !to_byte_to_N, IH.
Qed.

(* ===================================================================== *)
(* Further properties of the orchestrator                                *)
(* ===================================================================== *)

(* What a call of processUserMessage can leave behind, whatever its
   outcome: the orchestrator it found, that with the user message pushed,
   or that with the user message and a reply pushed. *)
Lemma processUserMessage_cases env userMessage o w res o' w' :
  VoiceOrchestrator.processUserMessage env userMessage (o, w) = (res, (o', w')) ->
  match res with
  | Returned r =>
      o' = VoiceOrchestrator.push (assistant_says (text r))
             (VoiceOrchestrator.push (user_says userMessage) o)
  | Thrown _ =>
      o' = o \/
      o' = VoiceOrchestrator.push (user_says userMessage) o \/
      exists t, o' = VoiceOrchestrator.push (assistant_says t)
                       (VoiceOrchestrator.push (user_says userMessage) o)
  end.
Proof.
  unfold VoiceOrchestrator.processUserMessage.
  rewrite try_catch_rethrow, bind_unfold.
  destruct (VoiceOrchestrator.saveMessage env "user" userMessage (o, w))
    as [[[]|e] [o1 w1]] eqn:E1;
    pose proof (keeps_saveMessage _ _ _ _ _ _ E1) as K1; cbn in K1; subst o1.
  2: { intros [= <- <- <-]. auto. }
  rewrite bind_unfold. cbn [modify fst snd]. rewrite bind_unfold.
  destruct (VoiceOrchestrator.generateLLMResponse env _)
    as [[reply|e] [o2 w2]] eqn:E2;
    pose proof (keeps_generateLLMResponse _ _ _ _ E2) as K2; cbn in K2; subst o2.
  2: { intros [= <- <- <-]. auto. }
  rewrite bind_unfold.
  destruct (VoiceOrchestrator.saveMessage env "assistant" reply _)
    as [[[]|e] [o3 w3]] eqn:E3;
    pose proof (keeps_saveMessage _ _ _ _ _ _ E3) as K3; cbn in K3; subst o3.
  2: { intros [= <- <- <-]. auto. }
  rewrite bind_unfold. cbn [modify fst snd]. rewrite bind_unfold.
  destruct (VoiceOrchestrator.generateAudio env reply _)
    as [[bytes|e] [o4 w4]] eqn:E4;
    pose proof (keeps_generateAudio _ _ _ _ _ E4) as K4; cbn in K4; subst o4.
  - intros [= <- <- <-]. reflexivity.
  - intros [= <- <- <-]. right. right. exists reply. reflexivity.
Qed.

Lemma appended_refl o : appended_only o o.
Proof. exists []. rewrite app_nil_r. now destruct o. Qed.

Lemma appended_push o o' m :
  appended_only o o' -> role m = "user" \/ role m = "assistant" ->
  appended_only o (VoiceOrchestrator.push m o').
Proof.
  intros (suffix & -> & Hs) Hm. exists (suffix ++ [m]). split.
  - unfold VoiceOrchestrator.push. cbn. now rewrite app_assoc.
  - apply Forall_app. split; [exact Hs | now constructor].
Qed.

Lemma keeps_transcribeAudio env audioBuffer :
  keeps_object (VoiceOrchestrator.transcribeAudio env audioBuffer).
Proof.
  apply keeps_get_bind. intros o. cbv zeta.
  destruct (String.eqb _ _).
  - apply keeps_bind; [apply keeps_request|].
    intros [| | |]; first [apply keeps_ret | apply keeps_throw].
  - destruct (String.eqb _ _); [|apply keeps_throw].
    apply keeps_bind; [apply keeps_request|].
    intros [| |[t|]|]; first [apply keeps_ret | apply keeps_throw].
Qed.

Lemma getFirstMessage_cases env o w res o' w' :
  VoiceOrchestrator.getFirstMessage env (o, w) = (res, (o', w')) ->
  if JsString.present (first_message (assistant o))
  then match res with
       | Returned (Some r) =>
           Some (text r) = first_message (assistant o) /\
           o' = VoiceOrchestrator.push (assistant_says (text r)) o
       | Returned None => False
       | Thrown _ =>
           o' = o \/
           o' = VoiceOrchestrator.push
                  (assistant_says (or_else (first_message (assistant o)) "")) o
       end
  else res = Returned None /\ o' = o /\ w' = w.
Proof.
  unfold VoiceOrchestrator.getFirstMessage. rewrite bind_unfold. cbn [get fst].
  destruct (first_message (assistant o)) as [fm|]; cbn [JsString.present].
  2: { intros [= <- <- <-]. auto. }
  destruct (JsString.truthy fm) eqn:Hfm.
  2: { intros [= <- <- <-]. auto. }
  cbn [or_else]. rewrite Hfm. rewrite bind_unfold.
  destruct (VoiceOrchestrator.saveMessage env "assistant" fm (o, w))
    as [[[]|e] [o1 w1]] eqn:E1;
    pose proof (keeps_saveMessage _ _ _ _ _ _ E1) as K1; cbn in K1; subst o1.
  2: { intros [= <- <- <-]. auto. }
  rewrite bind_unfold. cbn [modify fst snd]. rewrite bind_unfold.
  destruct (VoiceOrchestrator.generateAudio env fm _)
    as [[bytes|e] [o2 w2]] eqn:E2;
    pose proof (keeps_generateAudio _ _ _ _ _ E2) as K2; cbn in K2; subst o2.
  - intros [= <- <- <-]. auto.
  - intros [= <- <- <-]. auto.
Qed.

Lemma processUserAudio_cases env audioBuffer o w res o' w' :
  VoiceOrchestrator.processUserAudio env audioBuffer (o, w) = (res, (o', w')) ->
  match res with
  | Returned (r, transcription) =>
      JsString.truthy transcription = true /\
      o' = VoiceOrchestrator.push (assistant_says (text r))
             (VoiceOrchestrator.push (user_says transcription) o)
  | Thrown _ =>
      o' = o \/
      exists transcription,
        JsString.truthy transcription = true /\
        (o' = VoiceOrchestrator.push (user_says transcription) o \/
         exists t, o' = VoiceOrchestrator.push (assistant_says t)
                          (VoiceOrchestrator.push (user_says transcription) o))
  end.
Proof.
  unfold VoiceOrchestrator.processUserAudio.
  rewrite try_catch_rethrow, bind_unfold.
  destruct (VoiceOrchestrator.transcribeAudio env audioBuffer (o, w))
    as [[transcription|e] [o1 w1]] eqn:E1;
    pose proof (keeps_transcribeAudio _ _ _ _ _ E1) as K1; cbn in K1; subst o1.
  2: { intros [= <- <- <-]. auto. }
  destruct (JsString.truthy transcription) eqn:Ht.
  2: { intros [= <- <- <-]. auto. }
  rewrite bind_unfold.
  destruct (VoiceOrchestrator.processUserMessage env transcription (o, w1))
    as [[r|e] [o2 w2]] eqn:E2;
    apply processUserMessage_cases in E2.
  - intros [= <- <- <-]. auto.
  - intros [= <- <- <-]. destruct E2 as [-> | [-> | [t ->]]]; eauto 6.
Qed.

(** X1. The conversation history is append-only.  Whatever their outcome,
    processUserMessage, processUserAudio and getFirstMessage leave the
    orchestrator as it was except for user and assistant messages appended
    to its history: the earlier messages, the system prompt first among
    them, stay in place and unchanged. *)
Theorem history_is_append_only (env : Env) (o : VoiceOrchestrator) (w : World) :
  (forall userMessage res o' w',
     VoiceOrchestrator.processUserMessage env userMessage (o, w) = (res, (o', w')) ->
     appended_only o o') /\
  (forall audioBuffer res o' w',
     VoiceOrchestrator.processUserAudio env audioBuffer (o, w) = (res, (o', w')) ->
     appended_only o o') /\
  (forall res o' w',
     VoiceOrchestrator.getFirstMessage env (o, w) = (res, (o', w')) ->
     appended_only o o').
Proof.
  split; [|split].
  - intros userMessage res o' w' H. apply processUserMessage_cases in H.
    destruct res as [r|e].
    + subst o'. repeat apply appended_push; auto using appended_refl.
    + destruct H as [-> | [-> | [t ->]]];
        repeat apply appended_push; auto using appended_refl.
  - intros audioBuffer res o' w' H. apply processUserAudio_cases in H.
    destruct res as [[r t]|e].
    + destruct H as [_ ->]. repeat apply appended_push; auto using appended_refl.
    + destruct H as [-> | (t & _ & [-> | [x ->]])];
        repeat apply appended_push; auto using appended_refl.
  - intros res o' w' H. apply getFirstMessage_cases in H.
    destruct (JsString.present (first_message (assistant o))).
    + destruct res as [[r|]|e].
      * destruct H as [_ ->]. apply appended_push; auto using appended_refl.
      * destruct H.
      * destruct H as [-> | ->]; [apply appended_refl|].
        apply appended_push; auto using appended_refl.
    + destruct H as (_ & -> & _). apply appended_refl.
Qed.

Lemma history_is_append_only_witness :
  appended_only Sample.an_orchestrator
    (fst (snd (VoiceOrchestrator.processUserMessage Sample.tts_down "Hi"
                 (Sample.an_orchestrator, Sample.a_world)))).
Proof.
  destruct (VoiceOrchestrator.processUserMessage Sample.tts_down "Hi"
              (Sample.an_orchestrator, Sample.a_world)) as [res [o' w']] eqn:E.
  exact (proj1 (history_is_append_only Sample.tts_down Sample.an_orchestrator
                  Sample.a_world) "Hi" res o' w' E).
Defined.

(** X2. A turn whose speech synthesis fails is not rolled back: when the
    user message was saved, the reply generated and saved, and
    generateAudio then throws, processUserMessage throws that error with
    both the user message and the assistant reply already appended to the
    history. *)
Theorem synthesis_failure_keeps_the_reply (env : Env) (userMessage : string)
    (o : VoiceOrchestrator) (w w1 w2 w3 : World) (reply e : string)
    (s4 : VoiceOrchestrator * World) :
  let o1 := VoiceOrchestrator.push (user_says userMessage) o in
  let o2 := VoiceOrchestrator.push (assistant_says reply) o1 in
  VoiceOrchestrator.saveMessage env "user" userMessage (o, w)
    = (Returned tt, (o, w1)) ->
  VoiceOrchestrator.generateLLMResponse env (o1, w1) = (Returned reply, (o1, w2)) ->
  VoiceOrchestrator.saveMessage env "assistant" reply (o1, w2)
    = (Returned tt, (o1, w3)) ->
  VoiceOrchestrator.generateAudio env reply (o2, w3) = (Thrown e, s4) ->
  VoiceOrchestrator.processUserMessage env userMessage (o, w) = (Thrown e, s4) /\
  conversationHistory (fst s4) =
    conversationHistory o ++ [user_says userMessage; assistant_says reply].
Proof.
  intros o1 o2 Hsave Hgen Hsave2 Haudio.
  rewrite (processUserMessage_after_save _ _ _ _ _ Hsave).
  fold o1. rewrite bind_unfold, Hgen, bind_unfold, Hsave2.
  rewrite bind_unfold. cbn [modify fst snd]. fold o2.
  rewrite bind_unfold, Haudio. split; [reflexivity|].
  rewrite (keeps_generateAudio _ _ _ _ _ Haudio). cbn.
  now rewrite <- app_assoc.
Qed.

Lemma synthesis_failure_keeps_the_reply_witness :
  exists s4,
    VoiceOrchestrator.processUserMessage Sample.tts_down "Hi"
      (Sample.an_orchestrator, Sample.a_world)
      = (Thrown "Failed to generate speech from ElevenLabs", s4) /\
    conversationHistory (fst s4) =
      conversationHistory Sample.an_orchestrator
        ++ [user_says "Hi"; assistant_says "Glad to help."].
Proof.
  eexists.
  eapply (synthesis_failure_keeps_the_reply Sample.tts_down "Hi"
            Sample.an_orchestrator Sample.a_world);
    vm_compute; reflexivity.
Defined.

(** X3. An assistant whose model_provider is not "openai" cannot take a
    turn: processUserMessage always throws, and the only request it issues
    is the INSERT of the user message (no generation or synthesis request).
    When that INSERT is accepted the error is "Unsupported model provider:
    <provider>" and the user message stays appended to the history. *)
Theorem unsupported_model_provider_never_answers (env : Env) (userMessage : string)
    (o : VoiceOrchestrator) (w : World) :
  model_provider (assistant o) <> "openai" ->
  exists e o' w',
    VoiceOrchestrator.processUserMessage env userMessage (o, w)
      = (Thrown e, (o', w')) /\
    trace w' = trace w ++ [Sql (InsertMessage (sessionId o) "user" userMessage)] /\
    (env (trace w) (Sql (InsertMessage (sessionId o) "user" userMessage)) = Ack ->
     e = "Unsupported model provider: " +:+ model_provider (assistant o) /\
     conversationHistory o' = conversationHistory o ++ [user_says userMessage]).
Proof.
  intros Hp. apply String.eqb_neq in Hp.
  unfold VoiceOrchestrator.processUserMessage.
  rewrite try_catch_rethrow, bind_unfold.
  unfold VoiceOrchestrator.saveMessage at 1. rewrite bind_unfold. cbn [get fst].
  unfold query. cbn [fst snd].
  destruct (env (trace w) (Sql (InsertMessage (sessionId o) "user" userMessage)))
    eqn:Hreply;
    try (do 3 eexists; split; [reflexivity|]; split; [reflexivity|]; discriminate).
  cbn [Sql.run].
  rewrite bind_unfold. cbn [modify fst snd]. rewrite bind_unfold.
  unfold VoiceOrchestrator.generateLLMResponse at 1.
  rewrite bind_unfold. cbn [get fst VoiceOrchestrator.push assistant].
  rewrite Hp.
  do 3 eexists. split; [reflexivity|]. split; [reflexivity|].
  intros _. split; reflexivity.
Qed.

Lemma unsupported_model_provider_never_answers_witness :
  exists e o' w',
    VoiceOrchestrator.processUserMessage Sample.all_up "Hi"
      (VoiceOrchestrator.new "sess-2" Sample.an_anthropic_assistant, Sample.a_world)
      = (Thrown e, (o', w')) /\
    e = "Unsupported model provider: anthropic" /\
    trace w' = [Sql (InsertMessage "sess-2" "user" "Hi")].
Proof.
  destruct (unsupported_model_provider_never_answers Sample.all_up "Hi"
              (VoiceOrchestrator.new "sess-2" Sample.an_anthropic_assistant)
              Sample.a_world ltac:(discriminate))
    as (e & o' & w' & Hrun & Htrace & He).
  exists e, o', w'. split; [exact Hrun|]. split; [|exact Htrace].
  exact (proj1 (He eq_refl)).
Defined.

(** X4. getFirstMessage.  Without a configured first message (absent or
    empty) it returns null, issues no request and leaves the orchestrator
    as it was.  When it returns a greeting, the greeting's text is the
    configured first message and exactly that one assistant message was
    appended to the history. *)
Theorem getFirstMessage_greets_once (env : Env) (o : VoiceOrchestrator) (w : World) :
  (JsString.present (first_message (assistant o)) = false ->
   VoiceOrchestrator.getFirstMessage env (o, w) = (Returned None, (o, w)))
  /\
  (forall r o' w',
     VoiceOrchestrator.getFirstMessage env (o, w) = (Returned (Some r), (o', w')) ->
     first_message (assistant o) = Some (text r) /\
     conversationHistory o' = conversationHistory o ++ [assistant_says (text r)]).
Proof.
  split.
  - intros Hp.
    destruct (VoiceOrchestrator.getFirstMessage env (o, w)) as [res [o' w']] eqn:E.
    apply getFirstMessage_cases in E. rewrite Hp in E.
    now destruct E as (-> & -> & ->).
  - intros r o' w' E. apply getFirstMessage_cases in E.
    destruct (JsString.present (first_message (assistant o))).
    + destruct E as [Hfm ->]. split; [now symmetry | reflexivity].
    + destruct E as [[=] _].
Qed.

Lemma getFirstMessage_greets_once_witness :
  VoiceOrchestrator.getFirstMessage Sample.all_up
    (VoiceOrchestrator.new "sess-2" Sample.an_anthropic_assistant, Sample.a_world)
    = (Returned None,
       (VoiceOrchestrator.new "sess-2" Sample.an_anthropic_assistant, Sample.a_world))
  /\
  exists r o' w',
    VoiceOrchestrator.getFirstMessage Sample.all_up
      (Sample.an_orchestrator, Sample.a_world) = (Returned (Some r), (o', w')) /\
    conversationHistory o' =
      conversationHistory Sample.an_orchestrator ++ [assistant_says "Hello"].
Proof.
  split.
  - apply (proj1 (getFirstMessage_greets_once Sample.all_up
                    (VoiceOrchestrator.new "sess-2" Sample.an_anthropic_assistant)
                    Sample.a_world)).
    reflexivity.
  - destruct (VoiceOrchestrator.getFirstMessage Sample.all_up
                (Sample.an_orchestrator, Sample.a_world))
      as [[[r|]|e] [o' w']] eqn:E; try (vm_compute in E; discriminate).
    exists r, o', w'. split; [reflexivity|].
    destruct (proj2 (getFirstMessage_greets_once Sample.all_up
                       Sample.an_orchestrator Sample.a_world) r o' w' E)
      as [Hfm ->].
    injection Hfm as <-. reflexivity.
Defined.

(** X5. processUserAudio.  When it returns, the transcription it reports
    is non-empty and the history has grown by exactly the user message
    holding that transcription and the assistant reply.  When the
    transcription comes back empty it throws "Failed to transcribe audio"
    right after the transcription request: nothing is appended to the
    history and no generation is attempted. *)
Theorem processUserAudio_needs_a_transcript (env : Env) (audioBuffer : Buffer)
    (o : VoiceOrchestrator) (w : World) :
  (forall r transcription o' w',
     VoiceOrchestrator.processUserAudio env audioBuffer (o, w)
       = (Returned (r, transcription), (o', w')) ->
     transcription <> "" /\
     conversationHistory o' =
       conversationHistory o ++ [user_says transcription; assistant_says (text r)])
  /\
  (forall w1,
     VoiceOrchestrator.transcribeAudio env audioBuffer (o, w) = (Returned "", (o, w1)) ->
     VoiceOrchestrator.processUserAudio env audioBuffer (o, w)
       = (Thrown "Failed to transcribe audio", (o, w1))).
Proof.
  split.
  - intros r t o' w' E. apply processUserAudio_cases in E as [Ht ->].
    split; [now destruct t|]. cbn. now rewrite <- app_assoc.
  - intros w1 Ht. unfold VoiceOrchestrator.processUserAudio.
    now rewrite try_catch_rethrow, bind_unfold, Ht.
Qed.

Lemma processUserAudio_needs_a_transcript_witness :
  VoiceOrchestrator.processUserAudio Sample.stt_mute [x52; x49]
    (Sample.an_orchestrator, Sample.a_world)
  = (Thrown "Failed to transcribe audio",
     (Sample.an_orchestrator,
      log (DeepgramPrerecorded [x52; x49] "nova-2" "en-US") Sample.a_world))
  /\
  exists r o' w',
    VoiceOrchestrator.processUserAudio Sample.all_up [x52; x49]
      (Sample.an_orchestrator, Sample.a_world) = (Returned (r, "hi"), (o', w')) /\
    conversationHistory o' =
      conversationHistory Sample.an_orchestrator
        ++ [user_says "hi"; assistant_says (text r)].
Proof.
  split.
  - apply (proj2 (processUserAudio_needs_a_transcript Sample.stt_mute [x52; x49]
                    Sample.an_orchestrator Sample.a_world)).
    vm_compute. reflexivity.
  - destruct (VoiceOrchestrator.processUserAudio Sample.all_up [x52; x49]
                (Sample.an_orchestrator, Sample.a_world))
      as [[[r t]|e] [o' w']] eqn:E; [|vm_compute in E; discriminate].
    assert (t = "hi") as -> by (vm_compute in E; congruence).
    exists r, o', w'. split; [reflexivity|].
    exact (proj2 (proj1 (processUserAudio_needs_a_transcript Sample.all_up
                           [x52; x49] Sample.an_orchestrator Sample.a_world)
                    r "hi" o' w' E)).
Defined.

(* ===================================================================== *)
(* Further properties of the streaming transcription session             *)
(* ===================================================================== *)

Lemma closeLiveConnection_Returned env d w d' w' :
  DeepgramService.closeLiveConnection env (d, w) = (Returned tt, (d', w')) ->
  d' = DeepgramService.set_liveConnection None d /\
  match liveConnection d with
  | Some c => w' = log (LiveFinish c) w
  | None => w' = w
  end.
Proof.
  unfold DeepgramService.closeLiveConnection. rewrite bind_unfold. cbn [get fst].
  destruct (liveConnection d) as [c|] eqn:Hd.
  - rewrite bind_unfold. unfold request. cbn [fst snd].
    destruct (env (trace w) (LiveFinish c)); try discriminate;
      intros [= <- <-]; auto.
  - intros [= <- <-]. split; [|reflexivity].
    destruct d as [l n]. cbn in Hd. now subst l.
Qed.

(** X6. Closing the live connection.  Once closeLiveConnection has
    returned, the session is closed (liveConnection is null) with its
    transcript handlers still registered; closing it again does nothing
    and issues no request; and sendAudio throws "No active live
    connection" without forwarding anything. *)
Theorem closed_session_rejects_audio (env : Env) (d d' : DeepgramService)
    (w w' : World) :
  DeepgramService.closeLiveConnection env (d, w) = (Returned tt, (d', w')) ->
  liveConnection d' = None /\
  transcript_listeners d' = transcript_listeners d /\
  DeepgramService.closeLiveConnection env (d', w') = (Returned tt, (d', w')) /\
  forall audioData,
    DeepgramService.sendAudio env audioData (d', w')
      = (Thrown "No active live connection", (d', w')).
Proof.
  intros H. apply closeLiveConnection_Returned in H as [-> _].
  split; [reflexivity|]. split; [reflexivity|]. split; [reflexivity|].
  intros audioData. now apply sendAudio_closed.
Qed.

Lemma closed_session_rejects_audio_witness :
  exists d' w',
    DeepgramService.closeLiveConnection Sample.all_up
      ({| liveConnection := Some 7%nat; transcript_listeners := 1 |}, Sample.a_world)
      = (Returned tt, (d', w')) /\
    trace w' = [LiveFinish 7] /\
    DeepgramService.sendAudio Sample.all_up [x52]
      (d', w') = (Thrown "No active live connection", (d', w')).
Proof.
  destruct (DeepgramService.closeLiveConnection Sample.all_up
              ({| liveConnection := Some 7%nat; transcript_listeners := 1 |},
               Sample.a_world)) as [r [d' w']] eqn:E.
  assert (r = Returned tt) as -> by (vm_compute in E; congruence).
  exists d', w'. split; [reflexivity|].
  split; [vm_compute in E; injection E as _ <-; reflexivity|].
  apply (closed_session_rejects_audio Sample.all_up _ d' _ w' E).
Defined.

Lemma on_orchestrator_run {A} (m : M VoiceOrchestrator A) c w :
  WebSocket.on_orchestrator m (c, w) =
  (fst (m (orchestrator c, w)),
   (WebSocket.set_orchestrator (fst (snd (m (orchestrator c, w)))) c,
    snd (snd (m (orchestrator c, w))))).
Proof.
  unfold WebSocket.on_orchestrator, zoom. cbn [fst snd].
  now destruct (m (orchestrator c, w)) as [r [o' w']].
Qed.

Lemma on_deepgram_run {A} (m : M DeepgramService A) c w :
  WebSocket.on_deepgram m (c, w) =
  (fst (m (deepgram (orchestrator c), w)),
   (WebSocket.set_orchestrator
      (VoiceOrchestrator.set_deepgram
         (fst (snd (m (deepgram (orchestrator c), w)))) (orchestrator c)) c,
    snd (snd (m (deepgram (orchestrator c), w))))).
Proof.
  unfold WebSocket.on_deepgram. rewrite on_orchestrator_run.
  unfold VoiceOrchestrator.with_deepgram, zoom. cbn [fst snd].
  now destruct (m (deepgram (orchestrator c), w)) as [r [d' w']].
Qed.

Lemma set_same_deepgram c :
  WebSocket.set_orchestrator
    (VoiceOrchestrator.set_deepgram (deepgram (orchestrator c)) (orchestrator c)) c
  = c.
Proof. destruct c as [[sid a h d] s cl]. reflexivity. Qed.

(** X7. An audio chunk that arrives while the live connection is open is
    base64-decoded and forwarded to that connection in exactly one send.
    The handler returns normally whether or not the send succeeds: nothing
    is sent to the client and the connection state is unchanged. *)
Theorem chunk_while_open_is_forwarded (env : Env) (c : Connection) (w : World)
    (connection : nat) (data : string) :
  liveConnection (deepgram (orchestrator c)) = Some connection ->
  data <> "" ->
  WebSocket.on_message env (Some (UserAudioStreamChunk (Some data))) (c, w)
    = (Returned tt, (c, log (LiveSend connection (Base64.decode data)) w)).
Proof.
  intros Hopen Hdata. unfold WebSocket.on_message.
  unfold try_catch at 1. unfold try_catch. rewrite bind_unfold. cbn [get fst].
  unfold DeepgramService.isLiveConnectionActive. rewrite Hopen.
  cbn [JsString.present or_else andb]. rewrite (truthy_nonempty _ Hdata).
  rewrite on_deepgram_run.
  unfold DeepgramService.sendAudio. rewrite bind_unfold. cbn [get fst].
  rewrite Hopen, bind_unfold. unfold request. cbn [fst snd].
  destruct (env (trace w) (LiveSend connection (Base64.decode data)));
    cbn [fst snd throw mret M_ret ret]; rewrite set_same_deepgram; reflexivity.
Qed.

Lemma chunk_while_open_is_forwarded_witness :
  WebSocket.on_message Sample.live_send_down (Some (UserAudioStreamChunk (Some "AAEC")))
    (Sample.a_streaming_connection, Sample.a_world)
  = (Returned tt,
     (Sample.a_streaming_connection,
      log (LiveSend 0 [x00; x01; x02]) Sample.a_world)).
Proof.
  apply (chunk_while_open_is_forwarded Sample.live_send_down
           Sample.a_streaming_connection Sample.a_world 0 "AAEC");
    [reflexivity | discriminate].
Defined.

(* ===================================================================== *)
(* Further properties of the socket transport                            *)
(* ===================================================================== *)

Lemma createLiveConnection_run env model language interim d w :
  DeepgramService.createLiveConnection env model language interim (d, w) =
  match env (trace w) (DeepgramListenLive (or_else model "nova-2")
                         (or_else language "en-US") interim) with
  | Ack =>
      (Returned (now w),
       (DeepgramService.set_liveConnection (Some (now w)) d,
        log (DeepgramListenLive (or_else model "nova-2")
               (or_else language "en-US") interim) w))
  | _ =>
      (Thrown "Failed to initialize live transcription",
       (d, log (DeepgramListenLive (or_else model "nova-2")
                  (or_else language "en-US") interim) w))
  end.
Proof.
  unfold DeepgramService.createLiveConnection. rewrite bind_unfold.
  unfold request. cbn [fst snd].
  now destruct (env (trace w) _).
Qed.

Ltac one_message :=
  do 2 eexists; (split; [reflexivity|]); unfold sent_at_most_one; cbn;
  first [left; reflexivity | right; eexists; reflexivity].

(** X8. The message handler of a connection never throws, whatever the
    frame and whatever the collaborators do, and it hands at most one
    message to ws.send per frame received. *)
Theorem on_message_answers_at_most_once (env : Env) (frame : option ClientMessage)
    (c : Connection) (w : World) :
  exists c' w',
    WebSocket.on_message env frame (c, w) = (Returned tt, (c', w')) /\
    sent_at_most_one c c'.
Proof.
  unfold WebSocket.on_message.
  destruct frame as [[t|data| |data| | |ty]|].
  - unfold try_catch. rewrite bind_unfold, on_orchestrator_run.
    destruct (VoiceOrchestrator.processUserMessage env t (orchestrator c, w))
      as [[r|e] [o' w']]; one_message.
  - destruct (JsString.present data); cbn [negb]; [|one_message].
    unfold try_catch. rewrite bind_unfold, on_orchestrator_run.
    destruct (VoiceOrchestrator.processUserAudio env _ (orchestrator c, w))
      as [[r|e] [o' w']]; one_message.
  - unfold try_catch. rewrite bind_unfold. cbn [get fst].
    rewrite bind_unfold, on_deepgram_run, createLiveConnection_run.
    destruct (env (trace w) _); one_message.
  - unfold try_catch. rewrite bind_unfold. cbn [get fst].
    destruct (_ && _); [|one_message].
    rewrite on_deepgram_run.
    destruct (DeepgramService.sendAudio env _ _) as [[[]|e] [d' w']]; one_message.
  - unfold try_catch. rewrite bind_unfold, on_deepgram_run.
    destruct (DeepgramService.closeLiveConnection env _) as [[[]|e] [d' w']];
      one_message.
  - unfold try_catch. rewrite bind_unfold. cbn [get fst]. rewrite bind_unfold.
    destruct (query env _ (c, w)) as [[[]|e] [c1 w1]] eqn:E;
      apply keeps_query in E; cbn in E; subst c1; one_message.
  - one_message.
  - one_message.
Qed.

(** X9. Text and audio turns over the socket are answered by exactly one
    message.  A user-message whose turn returns is answered with an
    assistant-message carrying the reply text and the base64 encoding of
    the synthesised audio; when the turn throws the answer is the error
    "Failed to process message".  A user-audio message with data is
    answered likewise, with the transcription added, and its failures are
    reported as "Failed to process audio".  In every case the orchestrator
    and the world are left as the turn left them. *)
Theorem socket_turn_is_answered_once (env : Env) (c : Connection) (w : World) :
  (forall t,
     let turn := VoiceOrchestrator.processUserMessage env t (orchestrator c, w) in
     WebSocket.on_message env (Some (UserMessage t)) (c, w) =
     (Returned tt,
      ({| orchestrator := fst (snd turn);
          sent := sent c ++
            [match fst turn with
             | Returned r =>
                 AssistantMessage (text r) (Base64.encode (audio r)) None
             | Thrown _ => ErrorMessage "Failed to process message"
             end];
          ws_closed := ws_closed c |},
       snd (snd turn))))
  /\
  (forall data,
     data <> "" ->
     let turn := VoiceOrchestrator.processUserAudio env (Base64.decode data)
                   (orchestrator c, w) in
     WebSocket.on_message env (Some (UserAudio (Some data))) (c, w) =
     (Returned tt,
      ({| orchestrator := fst (snd turn);
          sent := sent c ++
            [match fst turn with
             | Returned (r, transcription) =>
                 AssistantMessage (text r) (Base64.encode (audio r))
                                  (Some transcription)
             | Thrown _ => ErrorMessage "Failed to process audio"
             end];
          ws_closed := ws_closed c |},
       snd (snd turn)))).
Proof.
  split.
  - intros t turn. subst turn. unfold WebSocket.on_message, try_catch.
    rewrite bind_unfold, on_orchestrator_run.
    destruct (VoiceOrchestrator.processUserMessage env t (orchestrator c, w))
      as [[r|e] [o' w']]; reflexivity.
  - intros data Hdata turn. subst turn. unfold WebSocket.on_message.
    cbn [JsString.present or_else]. rewrite (truthy_nonempty _ Hdata). cbn [negb].
    unfold try_catch. rewrite bind_unfold, on_orchestrator_run.
    destruct (VoiceOrchestrator.processUserAudio env (Base64.decode data)
                (orchestrator c, w)) as [[[r t]|e] [o' w']]; reflexivity.
Qed.

Lemma socket_turn_is_answered_once_witness :
  sent (fst (snd (WebSocket.on_message Sample.stt_mute (Some (UserAudio (Some "UklG")))
                    (Sample.a_connection, Sample.a_world))))
  = [ErrorMessage "Failed to process audio"]
  /\
  sent (fst (snd (WebSocket.on_message Sample.all_up (Some (UserAudio (Some "UklG")))
                    (Sample.a_connection, Sample.a_world))))
  = [AssistantMessage "Glad to help." "UklG" (Some "hi")].
Proof.
  split.
  - rewrite (proj2 (socket_turn_is_answered_once Sample.stt_mute
                      Sample.a_connection Sample.a_world) "UklG")
      by discriminate.
    vm_compute. reflexivity.
  - rewrite (proj2 (socket_turn_is_answered_once Sample.all_up
                      Sample.a_connection Sample.a_world) "UklG")
      by discriminate.
    vm_compute. reflexivity.
Defined.

(** X10. Starting and stopping audio streaming.  A stream start that the
    provider accepts opens a new live connection, registers one more
    transcript handler and answers audio-stream-ready; the only request it
    issues is the one that opens the connection, so a connection that was
    already open is replaced without being finished.  A refused start is
    answered with the error "Failed to start audio streaming" and leaves
    the live connection and the handlers as they were.  A stream end never
    removes a transcript handler. *)
Theorem stream_start_adds_a_handler (env : Env) (c : Connection) (w : World) :
  let a := assistant (orchestrator c) in
  let listen := DeepgramListenLive (or_else (stt_model a) "nova-2")
                  (or_else (stt_language a) "en-US") true in
  (env (trace w) listen = Ack ->
   exists c',
     WebSocket.on_message env (Some UserAudioStreamStart) (c, w)
       = (Returned tt, (c', log listen w)) /\
     liveConnection (deepgram (orchestrator c')) = Some (now w) /\
     transcript_listeners (deepgram (orchestrator c'))
       = S (transcript_listeners (deepgram (orchestrator c))) /\
     conversationHistory (orchestrator c') = conversationHistory (orchestrator c) /\
     sent c' = sent c ++ [AudioStreamReady])
  /\
  (env (trace w) listen <> Ack ->
   WebSocket.on_message env (Some UserAudioStreamStart) (c, w)
     = (Returned tt,
        (say_to_client (ErrorMessage "Failed to start audio streaming") 1 c,
         log listen w)))
  /\
  (forall r c' w',
     WebSocket.on_message env (Some UserAudioStreamEnd) (c, w) = (r, (c', w')) ->
     transcript_listeners (deepgram (orchestrator c'))
       = transcript_listeners (deepgram (orchestrator c))).
Proof.
  intros a listen. split; [|split].
  - intros Hack. unfold WebSocket.on_message, try_catch.
    rewrite bind_unfold. cbn [get fst].
    rewrite bind_unfold, on_deepgram_run, createLiveConnection_run.
    fold a. fold listen. rewrite Hack.
    eexists. split; [reflexivity|]. cbn. auto.
  - intros Hnack. unfold WebSocket.on_message, try_catch.
    rewrite bind_unfold. cbn [get fst].
    rewrite bind_unfold, on_deepgram_run, createLiveConnection_run.
    fold a. fold listen.
    destruct (env (trace w) listen); try congruence;
      cbn [fst snd]; rewrite set_same_deepgram; reflexivity.
  - intros r c' w'. unfold WebSocket.on_message, try_catch.
    rewrite bind_unfold, on_deepgram_run.
    destruct (DeepgramService.closeLiveConnection env (deepgram (orchestrator c), w))
      as [[[]|e] [d' w1]] eqn:E.
    + apply closeLiveConnection_Returned in E as [-> _].
      intros [= _ <- _]. reflexivity.
    + assert (Hd : d' = deepgram (orchestrator c)).
      { revert E. unfold DeepgramService.closeLiveConnection.
        rewrite bind_unfold. cbn [get fst].
        destruct (liveConnection (deepgram (orchestrator c))); [|discriminate].
        rewrite bind_unfold. unfold request. cbn [fst snd].
        destruct (env (trace w) _); try discriminate. now intros [= _ <- _]. }
      subst d'. intros [= _ <- _]. reflexivity.
Qed.

Lemma stream_start_adds_a_handler_witness :
  exists c',
    WebSocket.on_message Sample.all_up (Some UserAudioStreamStart)
      (Sample.a_streaming_connection, Sample.a_world)
      = (Returned tt, (c', log (DeepgramListenLive "nova-2" "en-US" true) Sample.a_world)) /\
    transcript_listeners (deepgram (orchestrator c')) = 2%nat /\
    sent (fst (snd (WebSocket.deliver_transcript Sample.all_up
            {| lt_transcript := Some "hel"; lt_is_final := false; lt_confidence := None |}
            (c', Sample.a_world))))
      = [AudioStreamReady; InterimTranscript "hel" None; InterimTranscript "hel" None].
Proof.
  destruct (proj1 (stream_start_adds_a_handler Sample.all_up
                     Sample.a_streaming_connection Sample.a_world) eq_refl)
    as (c' & Hrun & _ & Hn & _ & _).
  exists c'. split; [exact Hrun|]. split; [exact Hn|].
  vm_compute in Hrun. injection Hrun as <-. vm_compute. reflexivity.
Defined.

Lemma where_Forall2 {A} (R : A -> A -> Prop) (p : A -> bool) (f : A -> A)
    (rows : list A) :
  (forall r, R r r) -> (forall r, p r = true -> R r (f r)) ->
  Forall2 R rows (Sql.where_ p f rows).
Proof.
  intros Hrefl Hf. unfold Sql.where_.
  induction rows as [|r rows IH]; cbn [map]; constructor; [|exact IH].
  destruct (p r) eqn:Hp; auto.
Qed.

Lemma Forall2_refl {A} (R : A -> A -> Prop) (l : list A) :
  (forall r, R r r) -> Forall2 R l l.
Proof. intros H. induction l; constructor; auto. Qed.

(** X11. The end-session message.  When the database accepts the update,
    the client is sent session-ended, the socket is closed and every
    sessions row of this session has status 'ended'.  When the update is
    rejected the client is sent the error "Failed to process message"
    instead, the socket stays as it was and no row is changed. *)
Theorem end_session_message (env : Env) (c : Connection) (w : World) :
  let q := EndSession (sessionId (orchestrator c)) false in
  (env (trace w) (Sql q) = Ack ->
   exists w',
     WebSocket.on_message env (Some EndSessionMessage) (c, w)
       = (Returned tt,
          ({| orchestrator := orchestrator c;
              sent := sent c ++ [SessionEnded];
              ws_closed := true |}, w')) /\
     forall s, In s (sessions w') -> s_id s = sessionId (orchestrator c) ->
               s_status s = "ended")
  /\
  (env (trace w) (Sql q) <> Ack ->
   WebSocket.on_message env (Some EndSessionMessage) (c, w)
     = (Returned tt,
        (say_to_client (ErrorMessage "Failed to process message") 1 c,
         log (Sql q) w))).
Proof.
  intros q. split.
  - intros Hack. unfold WebSocket.on_message, try_catch.
    rewrite bind_unfold. cbn [get fst]. rewrite bind_unfold.
    unfold query. cbn [fst snd]. fold q. rewrite Hack. cbn [Sql.run q].
    eexists. split; [reflexivity|].
    intros s Hs Hid. cbn [sessions] in Hs.
    apply where_In in Hs as (s0 & _ & ->).
    destruct (_ && _) eqn:Hp; [reflexivity|].
    cbn [negb orb] in Hp. rewrite andb_true_r in Hp.
    apply String.eqb_neq in Hp. now destruct Hp.
  - intros Hnack. unfold WebSocket.on_message, try_catch.
    rewrite bind_unfold. cbn [get fst]. rewrite bind_unfold.
    unfold query. cbn [fst snd]. fold q.
    destruct (env (trace w) (Sql q)); try congruence; reflexivity.
Qed.

Lemma end_session_message_witness :
  exists w',
    WebSocket.on_message Sample.all_up (Some EndSessionMessage)
      (Sample.a_connection, Sample.a_world)
      = (Returned tt,
         ({| orchestrator := Sample.an_orchestrator;
             sent := [SessionEnded]; ws_closed := true |}, w')) /\
    map s_status (sessions w') = ["ended"].
Proof.
  destruct (proj1 (end_session_message Sample.all_up Sample.a_connection
                     Sample.a_world) eq_refl) as (w' & Hrun & _).
  exists w'. split; [exact Hrun|].
  vm_compute in Hrun. injection Hrun as <-. reflexivity.
Defined.

(** X12. Session status is monotonic.  No statement the orchestration code
    issues brings a session back: running any of them keeps the sessions
    rows and their ids, and a row whose status is 'ended' still has status
    'ended' afterwards.  The update issued when the socket closes goes
    further and leaves every row that is not 'active' exactly as it is,
    its ended_at included. *)
Theorem ended_sessions_stay_ended (q : Statement) (w w' : World) :
  Sql.run q w = Some w' ->
  Forall2 (fun s s' => s_id s' = s_id s /\
                       (s_status s = "ended" -> s_status s' = "ended"))
          (sessions w) (sessions w')
  /\
  (forall id, q = EndSession id true ->
     Forall2 (fun s s' => s_status s <> "active" -> s' = s)
             (sessions w) (sessions w')).
Proof.
  intros H. split.
  - destruct q as [sid r c | st d ab sid | sid | id only]; cbn [Sql.run] in H.
    + injection H as <-. apply Forall2_refl. auto.
    + injection H as <-. apply Forall2_refl. auto.
    + destruct (Sql.call_ids sid (calls w)) as [|id [|id' ids]]; [| |discriminate];
        injection H as <-; [apply Forall2_refl; auto|].
      apply where_Forall2; auto.
    + injection H as <-. apply where_Forall2; auto.
  - intros id ->. cbn [Sql.run] in H. injection H as <-.
    apply where_Forall2; [auto|].
    intros s Hp Hactive. cbn [negb orb] in Hp.
    apply andb_true_iff in Hp as [_ Hp]. apply String.eqb_eq in Hp. contradiction.
Qed.

Lemma ended_sessions_stay_ended_witness :
  exists w',
    Sql.run (EndSession "sess-1" true) Sample.a_finished_world = Some w' /\
    sessions w' = sessions Sample.a_finished_world.
Proof.
  destruct (Sql.run (EndSession "sess-1" true) Sample.a_finished_world)
    as [w'|] eqn:E; [|discriminate].
  exists w'. split; [reflexivity|].
  pose proof (proj2 (ended_sessions_stay_ended (EndSession "sess-1" true)
                       Sample.a_finished_world w' E) "sess-1" eq_refl) as H.
  cbn [sessions Sample.a_finished_world] in H.
  inversion H as [|s s' l l' Hs Hl Hl1 Hl2]. inversion Hl. subst.
  rewrite Hs by discriminate. reflexivity.
Defined.

(** X13. Opening a session on the socket, once the session and its
    assistant are known.  The client is first sent connected with the
    session id.  Without a configured first message nothing else is sent
    and no request is issued.  When the greeting is produced it is sent as
    an assistant-message whose text is the first message.  When producing
    the greeting throws, the client is sent the error "Internal server
    error" and the socket is closed. *)
Theorem start_session_greets (env : Env) (sid : string) (a : Assistant) (w : World) :
  let o := VoiceOrchestrator.new sid a in
  (JsString.present (first_message a) = false ->
   WebSocket.start_session env sid a w
     = (Returned tt,
        ({| orchestrator := o; sent := [Connected sid]; ws_closed := false |}, w)))
  /\
  (forall r o' w',
     VoiceOrchestrator.getFirstMessage env (o, w) = (Returned (Some r), (o', w')) ->
     first_message a = Some (text r) /\
     WebSocket.start_session env sid a w
       = (Returned tt,
          ({| orchestrator := o';
              sent := [Connected sid;
                       AssistantMessage (text r) (Base64.encode (audio r)) None];
              ws_closed := false |}, w')))
  /\
  (forall e o' w',
     VoiceOrchestrator.getFirstMessage env (o, w) = (Thrown e, (o', w')) ->
     WebSocket.start_session env sid a w
       = (Returned tt,
          ({| orchestrator := o';
              sent := [Connected sid; ErrorMessage "Internal server error"];
              ws_closed := true |}, w'))).
Proof.
  intros o. split; [|split].
  - intros Hp.
    destruct (VoiceOrchestrator.getFirstMessage env (o, w)) as [res [o' w']] eqn:E.
    pose proof (getFirstMessage_cases _ _ _ _ _ _ E) as Hc.
    cbn [assistant o VoiceOrchestrator.new] in Hc. rewrite Hp in Hc.
    destruct Hc as (-> & -> & ->).
    unfold WebSocket.start_session, try_catch.
    rewrite bind_unfold. cbn [WebSocket.ws_send modify fst snd app].
    rewrite bind_unfold, on_orchestrator_run. cbn [orchestrator].
    fold o. rewrite E. reflexivity.
  - intros r o' w' E.
    pose proof (getFirstMessage_cases _ _ _ _ _ _ E) as Hc.
    cbn [assistant o VoiceOrchestrator.new] in Hc.
    split.
    { destruct (JsString.present (first_message a));
        [now destruct Hc as [<- _] | now destruct Hc as [[=] _]]. }
    unfold WebSocket.start_session, try_catch.
    rewrite bind_unfold. cbn [WebSocket.ws_send modify fst snd app].
    rewrite bind_unfold, on_orchestrator_run. cbn [orchestrator].
    fold o. rewrite E. reflexivity.
  - intros e o' w' E.
    unfold WebSocket.start_session, try_catch.
    rewrite bind_unfold. cbn [WebSocket.ws_send modify fst snd app].
    rewrite bind_unfold, on_orchestrator_run. cbn [orchestrator].
    fold o. rewrite E. reflexivity.
Qed.

Lemma start_session_greets_witness :
  (exists c w',
     WebSocket.start_session Sample.all_up "sess-1" Sample.an_assistant Sample.a_world
       = (Returned tt, (c, w')) /\
     sent c = [Connected "sess-1"; AssistantMessage "Hello" "UklG" None] /\
     conversationHistory (orchestrator c) =
       [{| role := "system"; content := "You are a helpful assistant." |};
        assistant_says "Hello"])
  /\
  (exists c w',
     WebSocket.start_session Sample.tts_down "sess-1" Sample.an_assistant Sample.a_world
       = (Returned tt, (c, w')) /\
     sent c = [Connected "sess-1"; ErrorMessage "Internal server error"] /\
     ws_closed c = true).
Proof.
  split.
  - destruct (VoiceOrchestrator.getFirstMessage Sample.all_up
                (VoiceOrchestrator.new "sess-1" Sample.an_assistant, Sample.a_world))
      as [[[r|]|e] [o' w']] eqn:E; try (vm_compute in E; discriminate).
    destruct (proj1 (proj2 (start_session_greets Sample.all_up "sess-1"
                              Sample.an_assistant Sample.a_world)) r o' w' E)
      as [_ Hrun].
    do 2 eexists. split; [exact Hrun|].
    vm_compute in E. injection E as <- <- _. split; reflexivity.
  - destruct (VoiceOrchestrator.getFirstMessage Sample.tts_down
                (VoiceOrchestrator.new "sess-1" Sample.an_assistant, Sample.a_world))
      as [[r|e] [o' w']] eqn:E; [vm_compute in E; discriminate|].
    do 2 eexists. split.
    + exact (proj2 (proj2 (start_session_greets Sample.tts_down "sess-1"
                             Sample.an_assistant Sample.a_world)) e o' w' E).
    + split; reflexivity.
Defined.

(* ===================================================================== *)
(* Further properties of the telephony bridge                            *)
(* ===================================================================== *)

Lemma lower_char_idempotent (c : ascii) :
  JsString.lower_char (JsString.lower_char c) = JsString.lower_char c.
Proof.
  unfold JsString.lower_char.
  destruct (JsString.is_upper (nat_of_ascii c)) eqn:H.
  - pose proof (is_upper_inv _ H) as Hn.
    rewrite nat_ascii_embedding by lia. now rewrite (is_upper_lowered _ H).
  - now rewrite H.
Qed.

Lemma toLowerCase_idempotent (s : string) :
  JsString.toLowerCase (JsString.toLowerCase s) = JsString.toLowerCase s.
Proof.
  induction s as [|c s IH]; cbn; [reflexivity|].
  now rewrite lower_char_idempotent, IH.
Qed.

(** X14. End-phrase matching.  It ignores letter case on both sides: two
    speeches that are equal up to the case of their letters end the call
    alike, and so do two phrase lists whose phrases are equal up to the
    case of their letters.  An empty phrase in the list matches every
    speech, and with no phrase configured no speech ends the call. *)
Theorem end_phrase_matching_ignores_case (speech : string) (endPhrases : list string) :
  (forall speech',
     same_up_to_case speech' speech = true ->
     Twilio.shouldEnd speech' endPhrases = Twilio.shouldEnd speech endPhrases)
  /\
  (forall endPhrases',
     Forall2 (fun p p' => same_up_to_case p p' = true) endPhrases endPhrases' ->
     Twilio.shouldEnd speech endPhrases' = Twilio.shouldEnd speech endPhrases)
  /\
  Twilio.shouldEnd speech (map JsString.toLowerCase endPhrases)
    = Twilio.shouldEnd speech endPhrases
  /\
  (In "" endPhrases -> Twilio.shouldEnd speech endPhrases = true)
  /\
  Twilio.shouldEnd speech [] = false.
Proof.
  split; [|split; [|split; [|split]]].
  - intros speech' H. unfold Twilio.shouldEnd.
    now rewrite (same_up_to_case_lower _ _ H).
  - intros endPhrases' H. unfold Twilio.shouldEnd.
    induction H as [|p p' ps ps' Hp _ IH]; [reflexivity|].
    cbn [existsb]. now rewrite (same_up_to_case_lower _ _ Hp), IH.
  - unfold Twilio.shouldEnd. induction endPhrases as [|p ps IH]; [reflexivity|].
    cbn [map existsb]. now rewrite toLowerCase_idempotent, IH.
  - intros Hin. apply shouldEnd_spec. exists "". split; [exact Hin|].
    exists "", (JsString.toLowerCase speech). reflexivity.
  - reflexivity.
Qed.

(* In the second instance the speech is ADIOS AMIGO and the phrase adios,
   each with an acute accent on its o: U+00D3 in the speech, U+00F3 in
   the phrase. *)
Lemma end_phrase_matching_ignores_case_witness :
  Twilio.shouldEnd "OK, THANKS BYE!" ["Goodbye"; "Thanks Bye"]
    = Twilio.shouldEnd "ok, thanks bye!" ["Goodbye"; "Thanks Bye"]
  /\
  Twilio.shouldEnd ("ADI" +:+ String "211" "S AMIGO") ["adi" +:+ String "243" "s"]
    = Twilio.shouldEnd ("adi" +:+ String "243" "s amigo") ["adi" +:+ String "243" "s"]
  /\
  Twilio.shouldEnd ("adi" +:+ String "243" "s amigo") ["adi" +:+ String "243" "s"]
    = true
  /\
  Twilio.shouldEnd "hello" ["goodbye"; ""] = true.
Proof.
  split; [|split; [|split]].
  - apply (proj1 (end_phrase_matching_ignores_case "ok, thanks bye!"
                    ["Goodbye"; "Thanks Bye"])).
    reflexivity.
  - apply (proj1 (end_phrase_matching_ignores_case
                    ("adi" +:+ String "243" "s amigo")
                    ["adi" +:+ String "243" "s"])).
    reflexivity.
  - reflexivity.
  - apply (proj1 (proj2 (proj2 (proj2 (end_phrase_matching_ignores_case "hello"
                                         ["goodbye"; ""]))))).
    right. left. reflexivity.
Defined.

(** X15. A speech result for a call that is not in the registry is
    answered with "Session expired. Please call again." and a hangup: no
    turn is taken, no request is issued and the registry is left as it
    was. *)
Theorem gather_for_unknown_call (env : Env) (base_url : string) (req : GatherRequest)
    (activeCalls : gmap string ActiveCall) (w : World) (speech : string) :
  SpeechResult req = Some speech ->
  speech <> "" ->
  activeCalls !! or_else (query_call_sid req) (gather_CallSid req) = None ->
  Twilio.gather env base_url req (activeCalls, w)
    = (Returned (Xml [Say "Polly.Joanna" "Session expired. Please call again.";
                      Hangup]),
       (activeCalls, w)).
Proof.
  intros Hspeech Hne Hreg. unfold Twilio.gather, try_catch.
  rewrite Hspeech. cbn [JsString.present]. rewrite (truthy_nonempty _ Hne).
  cbn [negb]. rewrite bind_unfold. cbn [get fst]. rewrite Hreg. reflexivity.
Qed.

Lemma gather_for_unknown_call_witness :
  Twilio.gather Sample.all_up "https://voice.example"
    {| query_call_sid := Some "CA9"; gather_CallSid := "CA1";
       SpeechResult := Some "hello" |}
    (Sample.a_registry, Sample.a_world)
  = (Returned (Xml [Say "Polly.Joanna" "Session expired. Please call again.";
                    Hangup]),
     (Sample.a_registry, Sample.a_world)).
Proof.
  apply (gather_for_unknown_call Sample.all_up "https://voice.example"
           {| query_call_sid := Some "CA9"; gather_CallSid := "CA1";
              SpeechResult := Some "hello" |}
           Sample.a_registry Sample.a_world "hello");
    [reflexivity | discriminate | vm_compute; reflexivity].
Defined.

Lemma twiml_reprompt base_url callSid :
  has_gather (TwilioService.generateTwiML base_url (Twilio.reprompt base_url callSid))
    = true /\
  has_hangup (TwilioService.generateTwiML base_url (Twilio.reprompt base_url callSid))
    = false.
Proof. split; reflexivity. Qed.

(** X16. The speech-result handler always answers with markup, whatever
    the request and whatever the collaborators do; the markup holds either
    a hangup or a gather, never both and never neither, so the call is
    always either ended or asked for more speech; and the handler never
    adds an entry to the registry. *)
Theorem gather_always_answers (env : Env) (base_url : string) (req : GatherRequest)
    (activeCalls : gmap string ActiveCall) (w : World) :
  exists markup activeCalls' w',
    Twilio.gather env base_url req (activeCalls, w)
      = (Returned (Xml markup), (activeCalls', w')) /\
    has_hangup markup = negb (has_gather markup) /\
    dom activeCalls' ⊆ dom activeCalls.
Proof.
  unfold Twilio.gather, try_catch.
  set (callSid := or_else (query_call_sid req) (gather_CallSid req)).
  destruct (JsString.present (SpeechResult req)); cbn [negb].
  2: { do 3 eexists. split; [reflexivity|]. split; [reflexivity | set_solver]. }
  rewrite bind_unfold. cbn [get fst].
  destruct (activeCalls !! callSid) as [activeCall|].
  2: { do 3 eexists. split; [reflexivity|]. split; [reflexivity | set_solver]. }
  rewrite bind_unfold. unfold Twilio.on_orchestrator, zoom. cbn [fst snd].
  destruct (VoiceOrchestrator.processUserMessage env _ _) as [[r|e] [o' w']].
  - destruct (Twilio.shouldEnd _ _).
    + rewrite bind_unfold. cbn [modify fst snd].
      do 3 eexists. split; [reflexivity|].
      destruct (twiml_say_and_hangup base_url (text r)) as (Hh & Hg & _).
      rewrite Hh, Hg. split; [reflexivity|].
      rewrite dom_delete_L, dom_alter_L. apply subseteq_difference_l. reflexivity.
    + do 3 eexists. split; [reflexivity|].
      destruct (twiml_say_and_gather base_url callSid (text r)) as (Hg & Hh & _).
      rewrite Hg, Hh. split; [reflexivity|]. now rewrite dom_alter_L.
  - do 3 eexists. split; [reflexivity|]. split; [reflexivity|].
    now rewrite dom_alter_L.
Qed.

(** X17. A turn that fails on the telephone is answered with "An error
    occurred." and a hangup, and the call stays registered: its registry
    entry is kept, holding the orchestrator as the failed turn left it. *)
Theorem failed_turn_keeps_the_call_registered (env : Env) (base_url : string)
    (req : GatherRequest) (activeCalls : gmap string ActiveCall) (w : World)
    (activeCall : ActiveCall) (speech e : string)
    (o' : VoiceOrchestrator) (w' : World) :
  let callSid := or_else (query_call_sid req) (gather_CallSid req) in
  SpeechResult req = Some speech ->
  speech <> "" ->
  activeCalls !! callSid = Some activeCall ->
  VoiceOrchestrator.processUserMessage env speech (call_orchestrator activeCall, w)
    = (Thrown e, (o', w')) ->
  Twilio.gather env base_url req (activeCalls, w)
    = (Returned (Xml [Say "Polly.Joanna" "An error occurred."; Hangup]),
       (<[callSid := Twilio.set_orchestrator o' activeCall]> activeCalls, w')).
Proof.
  intros callSid Hspeech Hne Hreg Hturn.
  unfold Twilio.gather, try_catch. fold callSid. rewrite Hspeech.
  cbn [JsString.present or_else]. rewrite (truthy_nonempty _ Hne). cbn [negb].
  rewrite bind_unfold. cbn [get fst]. rewrite Hreg.
  rewrite bind_unfold. unfold Twilio.on_orchestrator, zoom. cbn [fst snd].
  rewrite Hturn. cbn [mret M_ret ret].
  f_equal. f_equal.
  apply map_eq. intros k. destruct (decide (k = callSid)) as [->|Hk].
  - now rewrite lookup_alter_eq, lookup_insert_eq, Hreg.
  - now rewrite lookup_alter_ne, lookup_insert_ne by congruence.
Qed.

Lemma failed_turn_keeps_the_call_registered_witness :
  exists activeCalls' w',
    Twilio.gather Sample.llm_down "https://voice.example"
      {| query_call_sid := None; gather_CallSid := "CA1";
         SpeechResult := Some "goodbye" |}
      (Sample.a_registry, Sample.a_world)
      = (Returned (Xml [Say "Polly.Joanna" "An error occurred."; Hangup]),
         (activeCalls', w')) /\
    (conversationHistory ∘ call_orchestrator) <$> (activeCalls' !! "CA1")
      = Some (conversationHistory Sample.an_orchestrator ++ [user_says "goodbye"]).
Proof.
  destruct (VoiceOrchestrator.processUserMessage Sample.llm_down "goodbye"
              (Sample.an_orchestrator, Sample.a_world))
    as [[r|e] [o' w']] eqn:E; [vm_compute in E; discriminate|].
  do 2 eexists. split.
  - apply (failed_turn_keeps_the_call_registered Sample.llm_down
             "https://voice.example"
             {| query_call_sid := None; gather_CallSid := "CA1";
                SpeechResult := Some "goodbye" |}
             Sample.a_registry Sample.a_world
             {| call_orchestrator := Sample.an_orchestrator;
                call_assistant := Sample.an_assistant |}
             "goodbye" e o' w' eq_refl ltac:(discriminate) eq_refl E).
  - cbn [or_else query_call_sid gather_CallSid JsString.truthy].
    rewrite lookup_insert_eq. cbn.
    vm_compute in E. injection E as _ <- _. reflexivity.
Defined.

(** X18. The status handler always acknowledges: it answers 200 OK or
    500 Error and never throws.  It touches no registry entry but that of
    the reported call, and none at all for a status other than completed
    or failed.  When the database rejects the calls update it answers 500
    and changes neither the registry nor any row.  Once the calls update
    of a completed or failed callback is accepted the registry entry is
    removed, also when the handler then fails to end the session and
    answers 500. *)
Theorem status_always_acknowledges (env : Env) (req : StatusRequest)
    (activeCalls : gmap string ActiveCall) (w : World) :
  let update := UpdateCall (CallStatus req) (num_or_else (CallDuration req) 0)
                  (AnsweredBy req) (status_CallSid req) in
  exists r activeCalls' w',
    Twilio.status env req (activeCalls, w) = (Returned r, (activeCalls', w')) /\
    (r = Plain 200 "OK" \/ r = Plain 500 "Error") /\
    (forall k, k <> status_CallSid req -> activeCalls' !! k = activeCalls !! k) /\
    (Twilio.cleans_up (CallStatus req) = false -> activeCalls' = activeCalls) /\
    (env (trace w) (Sql update) <> Ack ->
     r = Plain 500 "Error" /\ activeCalls' = activeCalls /\
     calls w' = calls w /\ sessions w' = sessions w) /\
    (env (trace w) (Sql update) = Ack ->
     Twilio.cleans_up (CallStatus req) = true ->
     activeCalls' = delete (status_CallSid req) activeCalls).
Proof.
  intros update. unfold Twilio.status, try_catch. rewrite bind_unfold.
  fold update. unfold query at 1. cbn [fst snd].
  destruct (env (trace w) (Sql update)) eqn:Hreply;
    try (do 3 eexists; split; [reflexivity|];
         repeat split; auto; congruence).
  cbn [Sql.run update].
  destruct (Twilio.cleans_up (CallStatus req)).
  - rewrite bind_unfold. cbn [modify fst snd]. rewrite bind_unfold.
    match goal with
    | |- context [query env ?q ?s] =>
        destruct (query env q s) as [[[]|e] [reg2 w2]] eqn:Hq2;
        apply keeps_query in Hq2; cbn in Hq2; subst reg2
    end.
    + do 3 eexists. split; [reflexivity|].
      repeat split; auto; try congruence.
      intros k Hk. now rewrite lookup_delete_ne.
    + do 3 eexists. split; [reflexivity|].
      repeat split; auto; try congruence.
      intros k Hk. now rewrite lookup_delete_ne.
  - do 3 eexists. split; [reflexivity|].
    repeat split; auto; congruence.
Qed.

Lemma status_always_acknowledges_witness :
  exists activeCalls' w',
    Twilio.status Sample.db_down
      {| status_CallSid := "CA1"; CallStatus := "completed";
         CallDuration := None; AnsweredBy := None |}
      (Sample.a_registry, Sample.a_world)
      = (Returned (Plain 500 "Error"), (activeCalls', w')) /\
    activeCalls' = Sample.a_registry /\
    calls w' = calls Sample.a_world /\ sessions w' = sessions Sample.a_world.
Proof.
  destruct (status_always_acknowledges Sample.db_down
              {| status_CallSid := "CA1"; CallStatus := "completed";
                 CallDuration := None; AnsweredBy := None |}
              Sample.a_registry Sample.a_world)
    as (r & activeCalls' & w' & Hrun & _ & _ & _ & Hdown & _).
  destruct (Hdown ltac:(discriminate)) as (-> & Hreg & Hcalls & Hsessions).
  exists activeCalls', w'. auto.
Defined.

(* ===================================================================== *)
(* Further properties of the voice-response builder                      *)
(* ===================================================================== *)

(** X19. generateTwiML.  The markup holds a hangup exactly when
    params.hangup is set and a gather exactly when params.gather is given.
    A hangup, when present, is the last instruction.  With say absent or
    empty nothing is spoken; with a non-empty say the text is spoken
    first, and a gather, when present, prompts with the same text. *)
Theorem generateTwiML_shape (base_url : string) (params : TwiMLParams) :
  let markup := TwilioService.generateTwiML base_url params in
  has_hangup markup = p_hangup params /\
  has_gather markup = match p_gather params with Some _ => true | None => false end /\
  (p_hangup params = true ->
   exists before, markup = before ++ [Hangup] /\ has_hangup before = false) /\
  (JsString.present (p_say params) = false ->
   forall t, speaks t markup = false) /\
  (forall t, p_say params = Some t -> t <> "" ->
     exists rest,
       markup = Say "Polly.Joanna" t :: rest /\
       forall input action timeout speechTimeout speechModel children,
         In (Gather input action timeout speechTimeout speechModel children) rest ->
         children = [NestedSay t]).
Proof.
  intros markup. subst markup.
  destruct params as [say play gather record hangup].
  unfold TwilioService.generateTwiML.
  cbn [p_say p_play p_gather p_record p_hangup].
  assert (Hsay : JsString.present say = false \/
                 exists t, say = Some t /\ t <> "" /\ JsString.present say = true).
  { destruct say as [[|a t]|]; cbn; auto.
    right. eexists. split; [reflexivity|]. split; [discriminate | reflexivity]. }
  split; [|split; [|split; [|split]]].
  - destruct (JsString.present say), (JsString.present play), gather, record, hangup;
      reflexivity.
  - destruct (JsString.present say), (JsString.present play), gather, record, hangup;
      reflexivity.
  - intros ->. eexists. split; [rewrite !app_assoc; reflexivity|].
    destruct (JsString.present say), (JsString.present play), gather, record;
      reflexivity.
  - intros Hp t. rewrite Hp.
    destruct (JsString.present play), gather, record, hangup; reflexivity.
  - intros t -> Ht. cbn [JsString.present or_else].
    rewrite (truthy_nonempty _ Ht). cbn [app].
    eexists. split; [reflexivity|].
    intros input action timeout speechTimeout speechModel children Hin.
    destruct (JsString.present play), gather, record, hangup;
      cbn in Hin; intuition (try discriminate); congruence.
Qed.

Lemma generateTwiML_shape_witness :
  TwilioService.generateTwiML "https://voice.example"
    (Twilio.say_and_gather "https://voice.example" "CA1" "Hi")
  = [Say "Polly.Joanna" "Hi";
     Gather ["speech"] (Some "https://voice.example/api/v1/twilio/gather?call_sid=CA1")
            3 "auto" "experimental_conversations" [NestedSay "Hi"]]
  /\
  exists before,
    TwilioService.generateTwiML "https://voice.example" (Twilio.say_and_hangup "Bye")
      = before ++ [Hangup] /\ has_hangup before = false.
Proof.
  split; [reflexivity|].
  apply (proj1 (proj2 (proj2 (generateTwiML_shape "https://voice.example"
                                (Twilio.say_and_hangup "Bye"))))).
  reflexivity.
Defined.

(* ===================================================================== *)
(* The requests of a turn                                                *)
(* ===================================================================== *)

Lemma saveMessage_Returned env r c o w o' w' :
  VoiceOrchestrator.saveMessage env r c (o, w) = (Returned tt, (o', w')) ->
  o' = o /\
  trace w' = trace w ++ [Sql (InsertMessage (sessionId o) r c)] /\
  messages w' = messages w ++
    [{| m_session_id := sessionId o; m_role := r; m_content := c |}] /\
  calls w' = calls w /\ sessions w' = sessions w.
Proof.
  unfold VoiceOrchestrator.saveMessage. rewrite bind_unfold. cbn [get fst].
  intros H. apply query_Returned in H as (-> & _ & Hrun).
  cbn [Sql.run] in Hrun. injection Hrun as <-. cbn. auto.
Qed.

Lemma generateLLMResponse_Returned env o w reply o' w' :
  VoiceOrchestrator.generateLLMResponse env (o, w) = (Returned reply, (o', w')) ->
  o' = o /\
  w' = log (ChatCompletion (conversationHistory o) (model_name (assistant o))
              (num_or_else (temperature (assistant o)) 70)
              (num_or_else (max_tokens (assistant o)) 500)) w.
Proof.
  unfold VoiceOrchestrator.generateLLMResponse. rewrite bind_unfold. cbn [get fst].
  destruct (String.eqb _ _); [|discriminate].
  rewrite bind_unfold. unfold OpenAIService.generateResponse.
  rewrite bind_unfold. unfold request. cbn [fst snd].
  destruct (env (trace w) _) as [| |[t|]|]; try discriminate;
    intros [= _ <- <-]; auto.
Qed.

Lemma generateAudio_Returned env t o w bytes o' w' :
  VoiceOrchestrator.generateAudio env t (o, w) = (Returned bytes, (o', w')) ->
  o' = o /\
  exists speech, speech_request (assistant o) t = Some speech /\ w' = log speech w.
Proof.
  unfold VoiceOrchestrator.generateAudio, speech_request.
  rewrite bind_unfold. cbn [get fst].
  destruct (String.eqb (voice_provider (assistant o)) "elevenlabs").
  - unfold ElevenLabsService.generateSpeech. rewrite bind_unfold.
    unfold request. cbn [fst snd].
    destruct (env (trace w) _); try discriminate.
    intros [= _ <- <-]. eauto.
  - destruct (String.eqb (voice_provider (assistant o)) "openai"); [|discriminate].
    unfold OpenAIService.generateSpeech. rewrite bind_unfold.
    unfold request. cbn [fst snd].
    destruct (env (trace w) _); try discriminate.
    intros [= _ <- <-]. eauto.
Qed.

(** X20. The requests of a successful turn, in order.  A call of
    processUserMessage that returns has issued exactly four requests: the
    INSERT of the user message, the generation request carrying the whole
    history with the new user message last, the INSERT of the assistant
    reply, and the speech request for the reply text.  The messages table
    has gained exactly the user row followed by the assistant row, and
    the calls and sessions tables are untouched. *)
Theorem successful_turn_requests (env : Env) (userMessage : string)
    (o o' : VoiceOrchestrator) (w w' : World) (r : TurnResult) :
  VoiceOrchestrator.processUserMessage env userMessage (o, w)
    = (Returned r, (o', w')) ->
  let a := assistant o in
  exists speech,
    speech_request a (text r) = Some speech /\
    trace w' = trace w ++
      [Sql (InsertMessage (sessionId o) "user" userMessage);
       ChatCompletion (conversationHistory o ++ [user_says userMessage])
         (model_name a) (num_or_else (temperature a) 70)
         (num_or_else (max_tokens a) 500);
       Sql (InsertMessage (sessionId o) "assistant" (text r));
       speech] /\
    messages w' = messages w ++
      [{| m_session_id := sessionId o; m_role := "user"; m_content := userMessage |};
       {| m_session_id := sessionId o; m_role := "assistant"; m_content := text r |}] /\
    calls w' = calls w /\ sessions w' = sessions w.
Proof.
  intros H a.
  unfold VoiceOrchestrator.processUserMessage in H.
  rewrite try_catch_rethrow in H.
  apply bind_Returned in H as ([] & [o1 w1] & Hsave & H).
  apply saveMessage_Returned in Hsave as (-> & Ht1 & Hm1 & Hc1 & Hs1).
  apply bind_Returned in H as ([] & s2 & Hpush & H).
  injection Hpush as <-. cbn [fst snd] in H.
  apply bind_Returned in H as (reply & [o3 w3] & Hgen & H).
  apply generateLLMResponse_Returned in Hgen as (-> & ->).
  apply bind_Returned in H as ([] & [o4 w4] & Hsave2 & H).
  apply saveMessage_Returned in Hsave2 as (-> & Ht4 & Hm4 & Hc4 & Hs4).
  apply bind_Returned in H as ([] & s5 & Hpush2 & H).
  injection Hpush2 as <-. cbn [fst snd] in H.
  apply bind_Returned in H as (bytes & [o6 w6] & Haudio & H).
  apply generateAudio_Returned in Haudio as (-> & speech & Hspeech & ->).
  injection H as <- <- <-.
  exists speech. cbn [text]. split; [exact Hspeech|].
  cbn [log trace messages calls sessions].
  cbn [log trace messages calls sessions VoiceOrchestrator.push sessionId
       assistant conversationHistory] in Ht4, Hm4, Hc4, Hs4.
  rewrite Ht4, Hm4, Hc4, Hs4, Ht1, Hm1, Hc1, Hs1.
  repeat split; now rewrite <- ?app_assoc.
Qed.

Lemma successful_turn_requests_witness :
  exists r o' w',
    VoiceOrchestrator.processUserMessage Sample.all_up "Hi"
      (Sample.an_orchestrator, Sample.a_world) = (Returned r, (o', w')) /\
    trace w' =
      [Sql (InsertMessage "sess-1" "user" "Hi");
       ChatCompletion
         [{| role := "system"; content := "You are a helpful assistant." |};
          user_says "Hi"] "gpt-4" 70 500;
       Sql (InsertMessage "sess-1" "assistant" "Glad to help.");
       ElevenLabsSpeech "Glad to help." "voice-1" None].
Proof.
  destruct (VoiceOrchestrator.processUserMessage Sample.all_up "Hi"
              (Sample.an_orchestrator, Sample.a_world))
    as [[r|e] [o' w']] eqn:E; [|vm_compute in E; discriminate].
  exists r, o', w'. split; [reflexivity|].
  destruct (successful_turn_requests Sample.all_up "Hi" Sample.an_orchestrator o'
              Sample.a_world w' r E) as (speech & Hspeech & Htrace & _).
  rewrite Htrace.
  assert (text r = "Glad to help.") as Hr
    by (vm_compute in E; injection E as <- _ _; reflexivity).
  rewrite Hr in *. vm_compute in Hspeech. injection Hspeech as <-. reflexivity.
Defined.

(** X21. The turn of a final transcript.  A call of the handler on a
    final transcript with text that is not blank sends nothing and leaves
    the rest of its first branch pending.  That turn runs
    processUserMessage on the text.  When the turn returns, the client is
    sent one assistant-message with the reply text, the base64 encoding of
    the synthesised audio and the transcript as its transcription.  When
    the turn throws, the client is sent nothing at all, no error message
    either.  Neither part of the handler ever throws. *)
Theorem final_transcript_turn (env : Env) (data : TranscriptEvent)
    (c : Connection) (w : World) :
  isFinal data = true ->
  JsString.all_whitespace (ev_text data) = false ->
  WebSocket.on_transcript env data (c, w) =
  (Returned (Some (WebSocket.process_final_transcription env (ev_text data))),
   (c, w))
  /\
  let turn := VoiceOrchestrator.processUserMessage env (ev_text data)
                (orchestrator c, w) in
  WebSocket.process_final_transcription env (ev_text data) (c, w) =
  (Returned tt,
   ({| orchestrator := fst (snd turn);
       sent := sent c ++
         match fst turn with
         | Returned r =>
             [AssistantMessage (text r) (Base64.encode (audio r))
                               (Some (ev_text data))]
         | Thrown _ => []
         end;
       ws_closed := ws_closed c |},
    snd (snd turn))).
Proof.
  intros Hf Hb. split.
  - now apply on_transcript_final.
  - apply process_final_transcription_run.
Qed.

Lemma final_transcript_turn_witness :
  sent (fst (snd (WebSocket.process_final_transcription Sample.llm_down "hello"
         (Sample.a_streaming_connection, Sample.a_world)))) = []
  /\
  sent (fst (snd (WebSocket.process_final_transcription Sample.all_up "hello"
         (Sample.a_streaming_connection, Sample.a_world))))
  = [AssistantMessage "Glad to help." "UklG" (Some "hello")].
Proof.
  split.
  - pose proof (proj2 (final_transcript_turn Sample.llm_down
                  {| ev_text := "hello"; isFinal := true; confidence := None |}
                  Sample.a_streaming_connection Sample.a_world eq_refl eq_refl)) as H.
    cbn [ev_text] in H. rewrite H. vm_compute. reflexivity.
  - pose proof (proj2 (final_transcript_turn Sample.all_up
                  {| ev_text := "hello"; isFinal := true; confidence := None |}
                  Sample.a_streaming_connection Sample.a_world eq_refl eq_refl)) as H.
    cbn [ev_text] in H. rewrite H. vm_compute. reflexivity.
Defined.
